(** * cloudflare-router: the matching-and-dispatch engine of [src/Router.ts]

    A shallow embedding of the [Route] and [Router] classes.  Router objects
    live in a store and are referred to by their index, because a Route's
    handler may be another Router object (shared, and possibly mounted in a
    cycle).  Handler functions are JavaScript function objects; they are
    referred to by an identifier and their bodies are looked up in a table
    when [serve] invokes them.  Errors raised with [throw] and unbounded
    recursion or iteration are explicit in the [result] type. *)

From Stdlib Require Import String Ascii List Arith Lia Bool.
From stdpp Require Import base list strings relations.

Local Open Scope string_scope.
Local Open Scope list_scope.

(** ** JavaScript string primitives used by the router *)

Module Js.

(** [a || b] on strings: the empty string is falsy. *)
Definition or_default (a b : string) : string :=
  match a with
  | EmptyString => b
  | String _ _ => a
  end.

(** [!!o] for a value that is an object or [null]/[undefined]. *)
Definition truthy {A : Type} (o : option A) : bool :=
  match o with
  | Some _ => true
  | None => false
  end.

(** [o === v] for an optional [o]: [undefined] equals no value. *)
Definition strict_eq_opt {A : Type} (eqb : A -> A -> bool)
  (o : option A) (v : A) : bool :=
  match o with
  | Some a => eqb a v
  | None => false
  end.

(** [a || b] on an optional boolean: [undefined] and [false] are falsy. *)
Definition or_bool (a : option bool) (b : bool) : bool :=
  match a with
  | Some true => true
  | Some false | None => b
  end.

(** [s.startsWith(search)] *)
Fixpoint startsWith (s search : string) : bool :=
  match search, s with
  | EmptyString, _ => true
  | String _ _, EmptyString => false
  | String a search', String b s' => Ascii.eqb a b && startsWith s' search'
  end.

(** [s.slice(start)] for a non-negative [start]. *)
Fixpoint slice (start : nat) (s : string) : string :=
  match start, s with
  | 0, _ => s
  | S _, EmptyString => EmptyString
  | S n, String _ rest => slice n rest
  end.

(** [s.endsWith(search)]: some suffix of [s] is [search]. *)
Fixpoint endsWith (s search : string) : bool :=
  String.eqb s search ||
  match s with
  | EmptyString => false
  | String _ rest => endsWith rest search
  end.

(** [toUpperCase] on one code unit: the letters a-z are shifted, every
    other code unit of the byte range is left alone. *)
Definition upper_ascii (c : ascii) : ascii :=
  let n := nat_of_ascii c in
  if ((97 <=? n) && (n <=? 122))%nat then ascii_of_nat (n - 32) else c.

(** [s.toUpperCase()] *)
Fixpoint toUpperCase (s : string) : string :=
  match s with
  | EmptyString => EmptyString
  | String c rest => String (upper_ascii c) (toUpperCase rest)
  end.

(** Two code units that are the same letter up to case. *)
Definition same_letter (a b : ascii) : Prop :=
  a = b \/
  (exists n : nat, (65 <= n <= 90)%nat /\
     ((nat_of_ascii a = n /\ nat_of_ascii b = n + 32) \/
      (nat_of_ascii a = n + 32 /\ nat_of_ascii b = n))).

(** Case-insensitive equality of strings, position by position. *)
Inductive eq_ignore_case : string -> string -> Prop :=
| eic_nil : eq_ignore_case "" ""
| eic_cons a b s t :
    same_letter a b -> eq_ignore_case s t ->
    eq_ignore_case (String a s) (String b t).

End Js.

(** ** Results of calls that may throw or fail to terminate *)

Inductive Error : Type :=
| ErrorMsg (msg : string)      (* [throw new Error(msg)] *)
| TypeError (msg : string).    (* raised by the runtime *)

(** [OutOfFuel] is the result of a recursion or loop that is cut off: a
    call that has this result for every amount of fuel does not return. *)
Inductive result (A : Type) : Type :=
| Return (a : A)
| Throw (e : Error)
| OutOfFuel.

Arguments Return {A} a.
Arguments Throw {A} e.
Arguments OutOfFuel {A}.

#[global] Instance result_ret : MRet result := fun _ a => Return a.

#[global] Instance result_bind : MBind result := fun _ _ k m =>
  match m with
  | Return a => k a
  | Throw e => Throw e
  | OutOfFuel => OutOfFuel
  end.

(** Calls that also mutate a store [S]: the store after the call is
    returned in every case, also when the call throws. *)
Definition Stateful (S A : Type) : Type := S -> S * result A.

#[global] Instance stateful_ret {S : Type} : MRet (Stateful S) :=
  fun _ a s => (s, Return a).

#[global] Instance stateful_bind {S : Type} : MBind (Stateful S) :=
  fun _ _ k m s =>
    match m s with
    | (s', Return a) => k a s'
    | (s', Throw e) => (s', Throw e)
    | (s', OutOfFuel) => (s', OutOfFuel)
    end.

Definition get_state {S : Type} : Stateful S S := fun s => (s, Return s).

Definition put_state {S : Type} (s' : S) : Stateful S unit :=
  fun _ => (s', Return tt).

Definition lift {S A : Type} (r : result A) : Stateful S A := fun s => (s, r).

Definition throw {S A : Type} (e : Error) : Stateful S A := lift (Throw e).

(** ** The data model *)

(** [type Methods = "ANY" | "GET" | "POST" | "PUT" | "PATCH" | "DELETE"] *)
Inductive Methods : Type := ANY | GET | POST | PUT | PATCH | DELETE.

Definition Methods_string (m : Methods) : string :=
  match m with
  | ANY => "ANY"
  | GET => "GET"
  | POST => "POST"
  | PUT => "PUT"
  | PATCH => "PATCH"
  | DELETE => "DELETE"
  end.

Definition Methods_eqb (a b : Methods) : bool :=
  match a, b with
  | ANY, ANY | GET, GET | POST, POST | PUT, PUT
  | PATCH, PATCH | DELETE, DELETE => true
  | _, _ => false
  end.

(** The parameters captured by a pattern: name and captured text. *)
Definition Params : Type := list (string * string).

(** The interface of the [url-pattern] package the router relies on:
    [new UrlPattern(spec)] may reject a malformed specification, and
    [pattern.match(path)] yields the captured parameters or [null]. *)
Class UrlPatternLib : Type := {
  UrlPattern : Type;
  UrlPattern_new : string -> option UrlPattern;
  UrlPattern_match : UrlPattern -> string -> option Params
}.

(** A handler is a function object or a Router object. *)
Inductive RouteHandler : Type :=
| FunctionHandler (f : nat)
| RouterHandler (r : nat).

(** [handler instanceof Router] *)
Definition instanceofRouter (h : RouteHandler) : bool :=
  match h with
  | RouterHandler _ => true
  | FunctionHandler _ => false
  end.

Record RouteOptions : Type := {
  opt_path : string;
  opt_handler : RouteHandler;
  opt_method : option Methods;
  opt_isMiddleware : option bool
}.

Section Router.

Context `{UrlPatternLib}.

(** The type parameter of the classes, and the type of the values the
    source types as [unknown] or [any] (response payloads). *)
Context {AdditionalDataType Value : Type}.

(** Modelled from the spec: the raw incoming request of [./interfaces]
    (method and path; its other fields play no part in dispatch) and the
    RequestContext class of [./RouterRequest], which wraps it: method,
    path, the captured parameters (unset until a handler Route is chosen)
    and the caller-supplied additional data. *)
Record IncomingRequest : Type := {
  in_method : string;
  in_path : string
}.

Record RouterRequest : Type := {
  req_method : string;
  req_path : string;
  req_params : option Params;
  req_additionalData : option AdditionalDataType
}.

Definition RouterRequest_new (request : IncomingRequest)
  (additionalData : option AdditionalDataType) : RouterRequest :=
  {| req_method := in_method request;
     req_path := in_path request;
     req_params := None;
     req_additionalData := additionalData |}.

Definition setParams (params : option Params) (request : RouterRequest)
  : RouterRequest :=
  {| req_method := req_method request;
     req_path := req_path request;
     req_params := params;
     req_additionalData := req_additionalData request |}.

Record RoutePath : Type := {
  pattern : UrlPattern;
  formattedPath : string;
  inputPath : string
}.

(** [router] is the back-reference to the Router that created the Route. *)
Record Route : Type := {
  router : nat;
  method : Methods;
  path : RoutePath;
  handler : RouteHandler;
  isMiddleware : bool;
  isRouterHandler : bool
}.

Record RouterOptions : Type := {
  ro_basePath : option string;
  ro_waterfallMiddleware : option bool;
  ro_customResponseTransformer : option (Value -> Value)
}.

Record Router : Type := {
  basePath : string;
  isWaterfall : bool;
  routes : list Route;
  customResponseTransformer : option (Value -> Value)
}.

Definition set_basePath (b : string) (R : Router) : Router :=
  {| basePath := b; isWaterfall := isWaterfall R; routes := routes R;
     customResponseTransformer := customResponseTransformer R |}.

Definition set_routes (rs : list Route) (R : Router) : Router :=
  {| basePath := basePath R; isWaterfall := isWaterfall R; routes := rs;
     customResponseTransformer := customResponseTransformer R |}.

(** The store of Router objects; a Router is referred to by its index. *)
Abbreviation Heap := (list Router).

Definition deref (h : Heap) (r : nat) : result Router :=
  match h !! r with
  | Some R => Return R
  | None => Throw (TypeError "not a Router object")
  end.

(** Reading and assigning the fields of the Router object [r]. *)
Definition read (r : nat) : Stateful Heap Router := fun h => (h, deref h r).

Definition write (r : nat) (R : Router) : Stateful Heap unit :=
  fun h => (<[r := R]> h, Return tt).

Record MatchingRoute : Type := {
  mr_route : Route;
  mr_match : option Params
}.

Record MatchResult : Type := {
  pathMatch : option Params;
  doesMatch : bool
}.

(** *** Router.fixPath *)

Definition fixPath (this : Router) (path : string) : string :=
  let path :=
    Js.or_default (basePath this) "/" +:+
    (if Js.startsWith path "/" then Js.slice 1 path else path) in
  if negb (Js.endsWith path "/") then path +:+ "/" else path.

(** *** Router.createUrlPattern *)

Definition createUrlPattern (path : string) : result UrlPattern :=
  match UrlPattern_new path with
  | Some p => Return p
  | None => Throw (ErrorMsg "malformed pattern")
  end.

(** *** The Route class *)

Definition Route_new (router : nat) (options : RouteOptions)
  : Stateful Heap Route :=
  this_router ← read router;
  let fixedPath := fixPath this_router (opt_path options) in
  pathPattern ← lift (createUrlPattern fixedPath);
  mret {|
    router := router;
    method := default GET (opt_method options);
    path := {| inputPath := opt_path options;
               formattedPath := fixPath this_router (opt_path options);
               pattern := pathPattern |};
    handler := opt_handler options;
    isMiddleware :=
      if instanceofRouter (opt_handler options) then false
      else default false (opt_isMiddleware options);
    isRouterHandler := instanceofRouter (opt_handler options)
  |}.

(** The Route object the constructor yields for a Router whose fields
    are [this_router], once the pattern has compiled to [pathPattern]. *)
Definition constructed (router : nat) (this_router : Router)
  (options : RouteOptions) (pathPattern : UrlPattern) : Route :=
  {| router := router;
     method := default GET (opt_method options);
     path := {| inputPath := opt_path options;
                formattedPath := fixPath this_router (opt_path options);
                pattern := pathPattern |};
     handler := opt_handler options;
     isMiddleware :=
       if instanceofRouter (opt_handler options) then false
       else default false (opt_isMiddleware options);
     isRouterHandler := instanceofRouter (opt_handler options) |}.

Definition matchPath (this : Route) (request : RouterRequest)
  : option Params :=
  UrlPattern_match (pattern (path this)) (req_path request).

Definition Route_match (this : Route) (request : RouterRequest)
  : MatchResult :=
  let pathMatches := matchPath this request in
  let methodMatches :=
    String.eqb (Js.toUpperCase (Methods_string (method this)))
               (Js.toUpperCase (req_method request)) in
  {| pathMatch := pathMatches;
     doesMatch := Js.truthy pathMatches && methodMatches |}.

(** *** Router.createRoute, Router.get, Router.post *)

Definition createRoute (this : nat) (options : RouteOptions)
  : Stateful Heap Route :=
  if negb (Js.strict_eq_opt Methods_eqb (opt_method options) ANY)
     && instanceofRouter (opt_handler options)
  then throw (ErrorMsg
    "Cannot have handler as instance of Router if method is not ANY!")
  else
    createdRoute ← Route_new this options;
    R ← read this;
    _ ← write this (set_routes (routes R ++ [createdRoute]) R);
    mret createdRoute.

Definition get (this : nat) (path : string) (handler : RouteHandler)
  : Stateful Heap unit :=
  _ ← createRoute this
    {| opt_path := path; opt_handler := handler;
       opt_method := Some GET; opt_isMiddleware := Some false |};
  mret tt.

Definition post (this : nat) (path : string) (handler : RouteHandler)
  : Stateful Heap unit :=
  _ ← createRoute this
    {| opt_path := path; opt_handler := handler;
       opt_method := Some POST; opt_isMiddleware := Some false |};
  mret tt.

(** *** Router.setBasePath *)

(** The [for (const oldRoute of this.routes)] loop.  The array iterator
    reads [this.routes] afresh at every step: it stops when its index
    reaches the current length of the array. *)
Fixpoint setBasePath_loop (fuel : nat) (this : nat) (i : nat)
  (newRoutes : list Route) : Stateful Heap (list Route) :=
  match fuel with
  | 0 => lift OutOfFuel
  | S fuel' =>
      R ← read this;
      match routes R !! i with
      | None => mret newRoutes
      | Some oldRoute =>
          newRoute ← createRoute this
            {| opt_path := inputPath (path oldRoute);
               opt_handler := handler oldRoute;
               opt_method := Some (method oldRoute);
               opt_isMiddleware := Some (isMiddleware oldRoute) |};
          setBasePath_loop fuel' this (S i) (newRoutes ++ [newRoute])
      end
  end.

Definition setBasePath (fuel : nat) (this : nat) (path : option string)
  : Stateful Heap string :=
  R ← read this;
  _ ← write this (set_basePath "/" R);
  R ← read this;
  _ ← write this
        (set_basePath (fixPath R (Js.or_default (default "" path) "/")) R);
  newRoutes ← setBasePath_loop fuel this 0 [];
  R ← read this;
  _ ← write this (set_routes newRoutes R);
  R ← read this;
  mret (basePath R).

(** *** The Router constructor: allocates the object at a fresh index. *)

Definition Router_new (fuel : nat) (options : RouterOptions)
  : Stateful Heap nat :=
  h ← get_state;
  let this := length h in
  _ ← put_state (h ++ [
        {| basePath := "";
           isWaterfall := Js.or_bool (ro_waterfallMiddleware options) true;
           routes := [];
           customResponseTransformer :=
             ro_customResponseTransformer options |}])%list;
  newBasePath ← setBasePath fuel this (ro_basePath options);
  R ← read this;
  _ ← write this (set_basePath newBasePath R);
  mret this.

(** *** Router.findMatchingRoutes *)

(** The loop over [this.routes]; [recurse] is the call of
    [findMatchingRoutes] on a nested Router. *)
Fixpoint findMatchingRoutes_loop
  (recurse : nat -> result (list MatchingRoute))
  (request : RouterRequest)
  (rs : list Route) (foundMatching : list MatchingRoute)
  : result (list MatchingRoute) :=
  match rs with
  | [] => mret foundMatching
  | route :: rest =>
      match handler route with
      | RouterHandler nested =>
          nestedMatching ← recurse nested;
          findMatchingRoutes_loop recurse request rest
            (foundMatching ++ nestedMatching)
      | FunctionHandler _ =>
          let matchRoute := Route_match route request in
          if doesMatch matchRoute then
            findMatchingRoutes_loop recurse request rest
              (foundMatching ++
                 [{| mr_match := pathMatch matchRoute; mr_route := route |}])
          else
            findMatchingRoutes_loop recurse request rest
              foundMatching
      end
  end.

(** [fuel] bounds the depth of the recursion through nested Routers. *)
Fixpoint findMatchingRoutes (fuel : nat) (h : Heap) (this : nat)
  (request : RouterRequest) : result (list MatchingRoute) :=
  match fuel with
  | 0 => OutOfFuel
  | S fuel' =>
      R ← deref h this;
      findMatchingRoutes_loop
        (fun nested => findMatchingRoutes fuel' h nested request)
        request (routes R) []
  end.

(** *** Router.serve *)

(** Modelled from the spec: the ResponseBuilder class of
    [./RouterResponse], which accumulates the response payload set by the
    handlers, records the Route that handles the request, and builds the
    emitted response: the payload passed through the configured response
    transform, or the payload as it is when none is configured. *)
Record RouterResponse : Type := {
  response : Value;
  resp_route : option Route
}.

Variable emptyResponse : Value.

Definition RouterResponse_new (request : RouterRequest) : RouterResponse :=
  {| response := emptyResponse; resp_route := None |}.

Definition setRoute (route : Route) (this : RouterResponse) : RouterResponse :=
  {| response := response this; resp_route := Some route |}.

Definition buildResponse (transform : option (Value -> Value))
  (this : RouterResponse) : Value :=
  match transform with
  | Some f => f (response this)
  | None => response this
  end.

(** The bodies of the handler functions.  A handler receives the request
    and the response by reference and may mutate both, or throw. *)
Variable functions :
  nat -> RouterRequest -> RouterResponse -> option AdditionalDataType ->
  result (RouterRequest * RouterResponse).

(** What a call of [serve] does besides computing: the calls it makes and
    what it writes to the console, in order. *)
Inductive Effect : Type :=
| CallFindMatchingRoutes
| CallHandler (route : Route)
| CallBuildResponse
| ConsoleLog (v : Value).

Record Dispatch : Type := {
  d_request : RouterRequest;
  d_response : RouterResponse;
  d_effects : list Effect
}.

Definition record (e : list Effect) (st : Dispatch) : Dispatch :=
  {| d_request := d_request st; d_response := d_response st;
     d_effects := d_effects st ++ e |}.

(** [handler(request, response, additionalData)] with [handler] the
    Route's handler, cast to a function by the source. *)
Definition invoke (route : Route) (additionalData : option AdditionalDataType)
  (st : Dispatch) : result Dispatch :=
  match handler route with
  | FunctionHandler f =>
      out ← functions f (d_request st) (d_response st) additionalData;
      mret {| d_request := out.1; d_response := out.2;
              d_effects := d_effects st ++ [CallHandler route] |}
  | RouterHandler _ => Throw (TypeError "handler is not a function")
  end.

(** [for (const middleware of middlewares) await executeMiddleware(...)] *)
Fixpoint waterfall (middlewares : list MatchingRoute)
  (additionalData : option AdditionalDataType) (st : Dispatch)
  : result Dispatch :=
  match middlewares with
  | [] => mret st
  | middleware :: rest =>
      st ← invoke (mr_route middleware) additionalData st;
      waterfall rest additionalData st
  end.

(** [await Promise.all(middlewares.map(executeMiddleware))]: every
    middleware is started, in order, also after one of them has thrown;
    the join rejects with the first rejection.  Handler bodies are atomic
    here, the interleaving of their own awaits is not modelled. *)
Fixpoint promiseAll (middlewares : list MatchingRoute)
  (additionalData : option AdditionalDataType) (st : Dispatch)
  (rejected : option Error) : result Dispatch :=
  match middlewares with
  | [] =>
      match rejected with
      | Some e => Throw e
      | None => mret st
      end
  | middleware :: rest =>
      match invoke (mr_route middleware) additionalData st with
      | Return st => promiseAll rest additionalData st rejected
      | Throw e =>
          promiseAll rest additionalData
            (record [CallHandler (mr_route middleware)] st)
            (Some (default e rejected))
      | OutOfFuel => OutOfFuel
      end
  end.

(** What the caller of [serve] observes when the promise resolves:
    the value it resolves with ([None] is [undefined]), the shared request
    and response objects, and the effects. *)
Record Served : Type := {
  returned : option Value;
  served : Dispatch
}.

Definition instanceofRouterRequest
  (request : RouterRequest + IncomingRequest) : bool :=
  match request with
  | inl _ => true
  | inr _ => false
  end.

Definition serve (fuel : nat) (h : Heap) (this : nat)
  (request : RouterRequest + IncomingRequest)
  (additionalData : option AdditionalDataType)
  (response : option RouterResponse) : result Served :=
  let alreadyProcessed := instanceofRouterRequest request in
  let request :=
    match request with
    | inr incoming => RouterRequest_new incoming additionalData
    | inl wrapped => wrapped
    end in
  let response := default (RouterResponse_new request) response in
  let st :=
    {| d_request := request; d_response := response; d_effects := [] |} in
  if negb alreadyProcessed then
    foundMatchingRoutes ← findMatchingRoutes fuel h this request;
    let st := record [CallFindMatchingRoutes] st in
    let middlewares :=
      List.filter (fun matchingRoute => isMiddleware (mr_route matchingRoute))
        foundMatchingRoutes in
    let responseHandler :=
      List.find (fun matchingRoute => true)
        (List.filter
           (fun matchingRoute => negb (isMiddleware (mr_route matchingRoute)))
           foundMatchingRoutes) in
    match responseHandler with
    | None =>
        Throw (ErrorMsg "Could not find a response handler for the request!")
    | Some responseHandler =>
        let st :=
          {| d_request := setParams (mr_match responseHandler) (d_request st);
             d_response := setRoute (mr_route responseHandler) (d_response st);
             d_effects := d_effects st |} in
        R ← deref h this;
        st ← (if (0 <? length middlewares)%nat then
                if isWaterfall R then waterfall middlewares additionalData st
                else promiseAll middlewares additionalData st None
              else mret st);
        st ← invoke (mr_route responseHandler) additionalData st;
        let builtResponse :=
          buildResponse (customResponseTransformer R) (d_response st) in
        let st := record [CallBuildResponse; ConsoleLog builtResponse] st in
        mret {| returned := None; served := st |}
    end
  else mret {| returned := None; served := st |}.

End Router.

Arguments IncomingRequest : clear implicits.
Arguments RouterRequest : clear implicits.
Arguments RouterOptions : clear implicits.
Arguments Router {_} Value.
Arguments RouterResponse {_} Value.
Arguments Effect {_} Value.
Arguments Dispatch {_} AdditionalDataType Value.
Arguments Served {_} AdditionalDataType Value.

(** ** Vocabulary of the properties *)

(** The options that the guard of [createRoute] rejects: a Router as
    handler under a method that is not ANY. *)
Definition rejected (options : RouteOptions) : bool :=
  negb (Js.strict_eq_opt Methods_eqb (opt_method options) ANY)
  && instanceofRouter (opt_handler options).

(** The input path with its leading separator removed, as [fixPath] joins
    it to the base path. *)
Definition stripped (path : string) : string :=
  if Js.startsWith path "/" then Js.slice 1 path else path.

(** A string that ends with a separator, and not with two of them. *)
Definition one_trailing_separator (s : string) : Prop :=
  Js.endsWith s "/" = true /\ Js.endsWith s "//" = false.

(** The options from which [setBasePath] creates a Route anew. *)
Definition rebuild_options `{UrlPatternLib} (oldRoute : Route) : RouteOptions :=
  {| opt_path := inputPath (path oldRoute);
     opt_handler := handler oldRoute;
     opt_method := Some (method oldRoute);
     opt_isMiddleware := Some (isMiddleware oldRoute) |}.

(** The nesting graph of a store: [mounts h a b] when a Route of the Router
    [a] has the Router [b] as handler. *)
Definition mounts `{UrlPatternLib} {Value : Type} (h : list (Router Value))
  (a b : nat) : Prop :=
  exists R route,
    h !! a = Some R /\ route ∈ routes R /\ handler route = RouterHandler b.

(** Every handler that is a Router refers to an object of the store. *)
Definition closed `{UrlPatternLib} {Value : Type} (h : list (Router Value))
  : Prop :=
  forall a b, mounts h a b -> is_Some (h !! b).

(** No Router of the nesting graph of [this] is reachable from itself. *)
Definition acyclic_from `{UrlPatternLib} {Value : Type}
  (h : list (Router Value)) (this : nat) : Prop :=
  forall r, rtc (mounts h) this r -> ~ tc (mounts h) r r.

(** The entry of the result of [findMatchingRoutes] for a matching Route. *)
Definition matching `{UrlPatternLib} {AdditionalDataType : Type}
  (request : RouterRequest AdditionalDataType) (route : Route)
  : MatchingRoute :=
  {| mr_match := pathMatch (Route_match route request); mr_route := route |}.

(** A Route with a function as handler that matches the request. *)
Definition plain_match `{UrlPatternLib} {AdditionalDataType : Type}
  (request : RouterRequest AdditionalDataType) (route : Route) : Prop :=
  instanceofRouter (handler route) = false /\
  doesMatch (Route_match route request) = true.

(** [closed], as a check that runs. *)
Definition closedb `{UrlPatternLib} {Value : Type} (h : list (Router Value))
  : bool :=
  forallb
    (fun R =>
       forallb
         (fun route =>
            match handler route with
            | RouterHandler b => (b <? length h)%nat
            | FunctionHandler _ => true
            end)
         (routes R))
    h.

(** What one Route contributes to the result of [findMatchingRoutes]. *)
Definition contribution `{UrlPatternLib} {AdditionalDataType : Type}
  (recurse : nat -> result (list MatchingRoute))
  (request : RouterRequest AdditionalDataType) (route : Route)
  : result (list MatchingRoute) :=
  match handler route with
  | RouterHandler nested => recurse nested
  | FunctionHandler _ =>
      Return (if doesMatch (Route_match route request)
              then [matching request route] else [])
  end.

(** What holds of a Route that the Router [i], with fields [R], owns: its
    back-reference, its normalized path under the base path of [R], its
    pattern compiled from that path, and the flags of a mounted Router. *)
Definition route_ok `{UrlPatternLib} {Value : Type} (i : nat)
  (R : Router Value) (route : Route) : Prop :=
  router route = i /\
  formattedPath (path route) = fixPath R (inputPath (path route)) /\
  UrlPattern_new (formattedPath (path route)) = Some (pattern (path route)) /\
  isRouterHandler route = instanceofRouter (handler route) /\
  (instanceofRouter (handler route) = true ->
   method route = ANY /\ isMiddleware route = false).

Definition store_ok `{UrlPatternLib} {Value : Type} (h : list (Router Value))
  : Prop :=
  forall i R route, h !! i = Some R -> route ∈ routes R -> route_ok i R route.

(** The Router object whose only set field is the root base path, on which
    [setBasePath] normalizes the new base path. *)
Definition rooted `{UrlPatternLib} {Value : Type} (R : Router Value)
  : Router Value :=
  set_basePath "/" R.


(** The effects of a successful dispatch that found [ms], chose the
    handler [terminal] and logged [built]. *)
Definition dispatch_effects `{UrlPatternLib} {Value : Type}
  (ms : list MatchingRoute) (terminal : MatchingRoute) (built : Value)
  : list (Effect Value) :=
  CallFindMatchingRoutes ::
  map (fun m => CallHandler (mr_route m))
      (List.filter (fun m => isMiddleware (mr_route m)) ms) ++
  [CallHandler (mr_route terminal); CallBuildResponse; ConsoleLog built].

(** ** A pattern library to run the router on *)

(** Modelled from the spec: the PathPattern component (the [url-pattern]
    package is not part of the repository).  A path specification is
    compiled into its segments; a segment that starts with the parameter
    marker [:] captures the value of the path's segment under that name.
    Matching is structural: the same number of segments, equal literal
    segments, and the captures of the parameter segments. *)
Module SegmentPatterns.

Inductive Segment : Type :=
| Literal (text : string)
| Capture (name : string).

(** The segments of a path, split at every separator. *)
Fixpoint segments (s : string) : list string :=
  match s with
  | EmptyString => [EmptyString]
  | String c rest =>
      if Ascii.eqb c "/" then EmptyString :: segments rest
      else
        match segments rest with
        | seg :: more => String c seg :: more
        | [] => [String c EmptyString]
        end
  end.

Definition compile_segment (s : string) : Segment :=
  match s with
  | String ":" name => Capture name
  | _ => Literal s
  end.

Definition compile (spec : string) : option (list Segment) :=
  Some (map compile_segment (segments spec)).

Fixpoint match_segments (pat : list Segment) (segs : list string)
  : option Params :=
  match pat, segs with
  | [], [] => Some []
  | Literal text :: pat', seg :: segs' =>
      if String.eqb text seg then match_segments pat' segs' else None
  | Capture name :: pat', seg :: segs' =>
      match seg with
      | EmptyString => None
      | String _ _ =>
          match match_segments pat' segs' with
          | Some params => Some ((name, seg) :: params)
          | None => None
          end
      end
  | _, _ => None
  end.

#[export] Instance lib : UrlPatternLib := {|
  UrlPattern := list Segment;
  UrlPattern_new := compile;
  UrlPattern_match pat p := match_segments pat (segments p)
|}.

End SegmentPatterns.

(** ** Concrete routers and requests *)

Module Scenario.
Import SegmentPatterns.

Definition no_options : RouterOptions string :=
  {| ro_basePath := None; ro_waterfallMiddleware := None;
     ro_customResponseTransformer := None |}.

(** [new Router()] in an empty store. *)
Definition rootRouter : Router string :=
  {| basePath := "/"; isWaterfall := true; routes := [];
     customResponseTransformer := None |}.

(** [new Router({ basePath: "/api/" })] in an empty store. *)
Definition apiRouter : Router string :=
  {| basePath := "/api/"; isWaterfall := true; routes := [];
     customResponseTransformer := None |}.

(** [{ path: "/x", handler: f0, method: "ANY" }] *)
Definition anyOptions : RouteOptions :=
  {| opt_path := "/x"; opt_handler := FunctionHandler 0;
     opt_method := Some ANY; opt_isMiddleware := None |}.

(** [{ path: "/widgets", handler: f0 }] *)
Definition widgetsOptions : RouteOptions :=
  {| opt_path := "/widgets"; opt_handler := FunctionHandler 0;
     opt_method := None; opt_isMiddleware := None |}.

(** The raw request [GET /x/], and the same request wrapped. *)
Definition getIncoming : IncomingRequest :=
  {| in_method := "GET"; in_path := "/x/" |}.

Definition getRequest : RouterRequest unit :=
  RouterRequest_new getIncoming None.

(** A parent Router with the routes [A; B; E], where [B] mounts a child
    Router with the routes [C; D].  [A] and [C] are middleware. *)
Definition xOptions (f : nat) (isMiddleware : bool) : RouteOptions :=
  {| opt_path := "/x"; opt_handler := FunctionHandler f;
     opt_method := Some GET; opt_isMiddleware := Some isMiddleware |}.

Definition mountOptions (nested : nat) : RouteOptions :=
  {| opt_path := "/sub"; opt_handler := RouterHandler nested;
     opt_method := Some ANY; opt_isMiddleware := None |}.

Definition xPattern : list Segment := [Literal ""; Literal "x"; Literal ""].
Definition subPattern : list Segment :=
  [Literal ""; Literal "sub"; Literal ""].

Definition routeA : Route := constructed 0 rootRouter (xOptions 0 true) xPattern.
Definition routeB : Route := constructed 0 rootRouter (mountOptions 1) subPattern.
Definition routeC : Route := constructed 1 rootRouter (xOptions 1 true) xPattern.
Definition routeD : Route := constructed 1 rootRouter (xOptions 2 false) xPattern.
Definition routeE : Route := constructed 0 rootRouter (xOptions 3 false) xPattern.

Definition nestedHeap : list (Router string) :=
  [set_routes [routeA; routeB; routeE] rootRouter;
   set_routes [routeC; routeD] rootRouter].

(** The calls that build [nestedHeap] from the empty store. *)
Definition registerNested : Stateful (list (Router string)) unit :=
  parent ← Router_new 1 no_options;
  child ← Router_new 1 no_options;
  _ ← createRoute parent (xOptions 0 true);
  _ ← createRoute parent (mountOptions child);
  _ ← createRoute child (xOptions 1 true);
  _ ← createRoute child (xOptions 2 false);
  _ ← createRoute parent (xOptions 3 false);
  mret tt.

(** Two Routers that mount each other. *)
Definition cyclicHeap : list (Router string) :=
  [set_routes [constructed 0 rootRouter (mountOptions 1) subPattern]
     rootRouter;
   set_routes [constructed 1 rootRouter (mountOptions 0) subPattern]
     rootRouter].

Definition registerCyclic : Stateful (list (Router string)) unit :=
  first ← Router_new 1 no_options;
  second ← Router_new 1 no_options;
  _ ← createRoute first (mountOptions second);
  _ ← createRoute second (mountOptions first);
  mret tt.

(** Handler functions: the function [f] appends its own letter to the
    response payload. *)
Definition letter (f : nat) : string :=
  match f with
  | 0 => "A"
  | 1 => "C"
  | 2 => "D"
  | _ => "E"
  end.

Definition handlers (f : nat) (request : RouterRequest unit)
  (res : RouterResponse string) (additionalData : option unit)
  : result (RouterRequest unit * RouterResponse string) :=
  Return (request,
          {| response := response res +:+ letter f;
             resp_route := resp_route res |}).

End Scenario.

(** Further stores and requests, built from those of [Scenario]. *)
Module Cases.
Import SegmentPatterns Scenario.

(** The Route that [createRoute(widgetsOptions)] adds to the root Router,
    and the store after the call. *)
Definition widgetsRoute : Route :=
  constructed 0 rootRouter widgetsOptions
    [Literal ""; Literal "widgets"; Literal ""].

Definition widgetsHeap : list (Router string) :=
  [set_routes [widgetsRoute] rootRouter].

(** A Router that mounts no Router, with a middleware and a handler. *)
Definition flatHeap : list (Router string) :=
  [set_routes [routeA; routeE] rootRouter].

(** A Router with a middleware only, and one with a handler only. *)
Definition middlewareHeap : list (Router string) :=
  [set_routes [routeA] rootRouter].

Definition handlerHeap : list (Router string) :=
  [set_routes [routeE] rootRouter].



(** What [serve] leaves after the dispatch of [GET /x/] on [nestedHeap]. *)
Definition nestedServed : Served unit string :=
  {| returned := None;
     served :=
       {| d_request := setParams (Some []) getRequest;
          d_response := {| response := "ACD"; resp_route := Some routeD |};
          d_effects :=
            [CallFindMatchingRoutes; CallHandler routeA; CallHandler routeC;
             CallHandler routeD; CallBuildResponse; ConsoleLog "ACD"] |} |}.

End Cases.

(** ** Facts about the string primitives *)

Module JsFacts.
Import Js.

Lemma app_nil_l (s : string) : "" +:+ s = s.
Proof. reflexivity. Qed.

Lemma app_cons (c : ascii) (a b : string) :
  String c a +:+ b = String c (a +:+ b).
Proof. reflexivity. Qed.

Lemma app_nil_r (s : string) : s +:+ "" = s.
Proof.
  induction s as [|c s IH]; [reflexivity | now rewrite app_cons, IH].
Qed.

Lemma app_assoc (a b c : string) : (a +:+ b) +:+ c = a +:+ (b +:+ c).
Proof.
  induction a as [|x a IH]; [reflexivity | now rewrite !app_cons, IH].
Qed.

Lemma length_app (a b : string) :
  String.length (a +:+ b) = String.length a + String.length b.
Proof.
  induction a as [|x a IH]; [reflexivity |].
  rewrite app_cons. simpl. now rewrite IH.
Qed.

Lemma app_eq_nil (a b : string) : a +:+ b = "" -> a = "" /\ b = "".
Proof. destruct a; [auto | rewrite app_cons; discriminate]. Qed.

(** Only the empty string is absorbed on the left of an append. *)
Lemma app_absorb_l (a b : string) : a +:+ b = b -> a = "".
Proof.
  intros E. apply (f_equal String.length) in E. rewrite length_app in E.
  destruct a; [reflexivity | simpl in E; lia].
Qed.

Lemma startsWith_slash (s : string) :
  startsWith s "/" = true <-> exists r, s = String "/" r.
Proof.
  destruct s as [|c r]; cbn [startsWith].
  - split; [discriminate | intros [r E]; discriminate].
  - destruct (Ascii.eqb_spec "/" c) as [<-|N]; cbn [andb].
    + destruct r; split; eauto.
    + split; [discriminate | intros [r' E]; congruence].
Qed.

Lemma startsWith_slash_false (c : ascii) (r : string) :
  c <> "/"%char -> startsWith (String c r) "/" = false.
Proof.
  intros N. destruct (startsWith (String c r) "/") eqn:E; [|reflexivity].
  apply startsWith_slash in E as [r' E]. congruence.
Qed.

Lemma endsWith_app_r (a s search : string) :
  endsWith s search = true -> endsWith (a +:+ s) search = true.
Proof.
  intros E. induction a as [|x a IH]; [exact E |].
  rewrite app_cons. cbn [endsWith]. rewrite IH. apply orb_true_r.
Qed.

Lemma endsWith_refl (s : string) : endsWith s s = true.
Proof. destruct s; cbn [endsWith]; rewrite String.eqb_refl; reflexivity. Qed.

Lemma endsWith_snoc (s : string) : endsWith (s +:+ "/") "/" = true.
Proof. apply endsWith_app_r, endsWith_refl. Qed.

(** A string ends with two separators exactly when it still ends with one
    after its last separator is removed. *)
Lemma endsWith_snoc2 (s : string) :
  endsWith (s +:+ "/") "//" = endsWith s "/".
Proof.
  induction s as [|c s IH]; [reflexivity |].
  rewrite app_cons. cbn [endsWith]. rewrite IH. f_equal.
  destruct (String.eqb_spec (String c (s +:+ "/")) "//") as [E|N],
           (String.eqb_spec (String c s) "/") as [E'|N']; try reflexivity.
  - exfalso. apply N'. injection E as -> E. destruct s as [|d s]; [reflexivity|].
    rewrite app_cons in E. injection E as _ E. destruct s; discriminate.
  - exfalso. apply N. injection E' as -> ->. reflexivity.
Qed.

Lemma endsWith_nonempty (s search : string) :
  endsWith s search = true -> search <> "" -> s <> "".
Proof.
  intros E N ->. cbn [endsWith] in E. rewrite orb_false_r in E.
  apply String.eqb_eq in E. congruence.
Qed.

End JsFacts.

(** ** Path normalization *)

Section FixPathFacts.

Context `{UrlPatternLib} {Value : Type}.
Implicit Types (this : Router Value) (path : string).
Import Js JsFacts.

Lemma or_default_nonempty (b : string) : or_default b "/" <> "".
Proof. destruct b; discriminate. Qed.

Lemma or_default_root (b : string) :
  or_default b "/" = "/" <-> b = "" \/ b = "/".
Proof.
  destruct b as [|c b]; simpl; [tauto |].
  split; [auto | intros [E|E]; [discriminate | exact E]].
Qed.

Lemma fixPath_unfold this path :
  fixPath this path =
    let joined := or_default (basePath this) "/" +:+ stripped path in
    if endsWith joined "/" then joined else joined +:+ "/".
Proof. unfold fixPath, stripped. now destruct (endsWith _ "/"). Qed.

Lemma fixPath_endsWith this path :
  endsWith (fixPath this path) "/" = true.
Proof.
  rewrite fixPath_unfold. cbv zeta.
  destruct (endsWith (_ +:+ stripped path) "/") eqn:E;
    [exact E | apply endsWith_snoc].
Qed.

(** The normalized path is the base path followed by some tail. *)
Lemma fixPath_shape this path :
  exists tail, fixPath this path = or_default (basePath this) "/" +:+ tail.
Proof.
  rewrite fixPath_unfold. cbv zeta. destruct (endsWith _ "/").
  - eauto.
  - exists (stripped path +:+ "/"). apply app_assoc.
Qed.

Lemma stripped_slash (r : string) : stripped (String "/" r) = r.
Proof. unfold stripped. cbn [startsWith slice]. now destruct r. Qed.

Lemma stripped_other (c : ascii) (r : string) :
  c <> "/"%char -> stripped (String c r) = String c r.
Proof. intros N. unfold stripped. now rewrite startsWith_slash_false. Qed.

(** Normalizing a string that already starts with the base path and ends
    with a separator only prepends the base path to the stripped string. *)
Lemma fixPath_again this (tail : string) :
  let b := or_default (basePath this) "/" in
  endsWith (b +:+ tail) "/" = true ->
  fixPath this (b +:+ tail) = b +:+ stripped (b +:+ tail).
Proof.
  intros b E. rewrite fixPath_unfold. cbv zeta. fold b.
  assert (endsWith (b +:+ stripped (b +:+ tail)) "/" = true) as ->;
    [| reflexivity].
  pose proof (or_default_nonempty (basePath this)) as NE. fold b in NE.
  clearbody b. destruct b as [|c b']; [congruence |].
  rewrite (app_cons c b' tail) in *.
  destruct (Ascii.eqb_spec c "/") as [->|N].
  - rewrite stripped_slash. cbn [endsWith] in E.
    apply orb_true_iff in E as [E|E]; [| now apply endsWith_app_r].
    apply String.eqb_eq in E. injection E as E.
    apply app_eq_nil in E as [-> ->]. reflexivity.
  - rewrite stripped_other by exact N. now apply endsWith_app_r.
Qed.

Lemma endsWith_two_one (s : string) :
  endsWith s "//" = true -> endsWith s "/" = true.
Proof.
  induction s as [|c s IH]; [discriminate |].
  cbn [endsWith]. intros E. apply orb_true_iff in E as [E|E].
  - apply String.eqb_eq in E as [= -> ->]. reflexivity.
  - rewrite (IH E). apply orb_true_r.
Qed.

Lemma fixPath_startsWith this path :
  startsWith (or_default (basePath this) "/") "/" = true ->
  startsWith (fixPath this path) "/" = true.
Proof.
  intros B. destruct (fixPath_shape this path) as [tail ->].
  apply startsWith_slash in B as [r ->]. apply startsWith_slash.
  rewrite app_cons. eauto.
Qed.

Lemma fixPath_trailing this path :
  endsWith (fixPath this path) "//" =
  endsWith (or_default (basePath this) "/" +:+ stripped path) "//".
Proof.
  rewrite fixPath_unfold. cbv zeta.
  destruct (endsWith (_ +:+ stripped path) "/") eqn:E; [reflexivity |].
  rewrite endsWith_snoc2, E.
  destruct (endsWith (_ +:+ stripped path) "//") eqn:E2; [| reflexivity].
  apply endsWith_two_one in E2. congruence.
Qed.

(** C4, amended: [fixPath] prepends the base path on every call, so
    normalizing a normalized path again yields the same string exactly
    when the Router's base path is the root ["/"] (or is empty, which
    [fixPath] reads as the root). *)
Theorem fixPath_idempotent_iff_root this path :
  fixPath this (fixPath this path) = fixPath this path <->
  (basePath this = "" \/ basePath this = "/").
Proof.
  rewrite <- or_default_root.
  destruct (fixPath_shape this path) as [tail E].
  pose proof (fixPath_endsWith this path) as F. rewrite E in F |- *.
  rewrite fixPath_again by exact F.
  pose proof (or_default_nonempty (basePath this)) as NE.
  destruct (or_default (basePath this) "/") as [|c b']; [congruence |].
  split.
  - intros I. apply (inj (String.append _)) in I. rewrite app_cons in I.
    destruct (Ascii.eqb_spec c "/") as [->|N].
    + rewrite stripped_slash in I. apply app_absorb_l in I. now subst b'.
    + rewrite stripped_other in I by exact N.
      apply (app_absorb_l (String c b')) in I. discriminate.
  - intros [= -> ->]. rewrite !app_cons, stripped_slash. reflexivity.
Qed.

(** C5, amended: for a base path that starts with the separator (or is
    empty), the normalized path starts with the separator and ends with
    one; [fixPath] appends a separator only when none is there and removes
    none, so the path ends with two separators exactly when the base path
    joined with the stripped input already does. *)
Theorem fixPath_separators this path :
  startsWith (or_default (basePath this) "/") "/" = true ->
  startsWith (fixPath this path) "/" = true /\
  endsWith (fixPath this path) "/" = true /\
  endsWith (fixPath this path) "//" =
    endsWith (or_default (basePath this) "/" +:+ stripped path) "//".
Proof.
  intros B. split; [now apply fixPath_startsWith |].
  split; [apply fixPath_endsWith | apply fixPath_trailing].
Qed.

End FixPathFacts.

Section FixPathExamples.

Import Js Scenario SegmentPatterns.

Example fixPath_root_widgets : fixPath rootRouter "/widgets" = "/widgets/".
Proof. reflexivity. Qed.

Example fixPath_root_bare : fixPath rootRouter "widgets/" = "/widgets/".
Proof. reflexivity. Qed.

Example fixPath_api_widgets : fixPath apiRouter "/widgets" = "/api/widgets/".
Proof. reflexivity. Qed.

Example fixPath_api_twice :
  fixPath apiRouter (fixPath apiRouter "/widgets") = "/api/api/widgets/".
Proof. reflexivity. Qed.

Example fixPath_root_double : fixPath rootRouter "a//" = "/a//".
Proof. reflexivity. Qed.

(** C4 as stated fails: under the base path ["/api/"] the second
    normalization of ["/widgets"] prepends the base path once more. *)
Lemma fixPath_not_idempotent_api :
  fixPath apiRouter (fixPath apiRouter "/widgets")
  <> fixPath apiRouter "/widgets".
Proof. rewrite fixPath_api_twice, fixPath_api_widgets. discriminate. Qed.

(** C5 as stated fails: the trailing separators of the input ["a//"] are
    kept, so the normalized path ends with two separators. *)
Lemma fixPath_keeps_double_separator :
  ~ (startsWith (fixPath rootRouter "a//") "/" = true /\
     one_trailing_separator (fixPath rootRouter "a//")).
Proof.
  rewrite fixPath_root_double. intros [_ [_ E]]. vm_compute in E.
  discriminate.
Qed.

Lemma fixPath_separators_witness :
  startsWith (or_default (basePath apiRouter) "/") "/" = true /\
  (startsWith (fixPath apiRouter "widgets") "/" = true /\
   endsWith (fixPath apiRouter "widgets") "/" = true /\
   endsWith (fixPath apiRouter "widgets") "//" =
     endsWith (or_default (basePath apiRouter) "/" +:+ stripped "widgets")
       "//").
Proof.
  split; [reflexivity | apply (fixPath_separators apiRouter "widgets")].
  reflexivity.
Defined.

End FixPathExamples.

(** ** Method matching *)

Module CaseFacts.
Import Js.

Lemma nat_of_ascii_inj (a b : ascii) :
  nat_of_ascii a = nat_of_ascii b -> a = b.
Proof.
  intros E. rewrite <- (ascii_nat_embedding a), <- (ascii_nat_embedding b).
  now rewrite E.
Qed.

Lemma nat_of_ascii_lt (a : ascii) : nat_of_ascii a < 256.
Proof. apply nat_ascii_bounded. Qed.

Lemma upper_ascii_lower (a : ascii) :
  97 <= nat_of_ascii a <= 122 ->
  nat_of_ascii (upper_ascii a) = nat_of_ascii a - 32.
Proof.
  intros R. unfold upper_ascii.
  destruct (Nat.leb_spec 97 (nat_of_ascii a)); [| lia].
  destruct (Nat.leb_spec (nat_of_ascii a) 122); [| lia].
  cbn [andb]. apply nat_ascii_embedding. lia.
Qed.

Lemma upper_ascii_other (a : ascii) :
  ~ 97 <= nat_of_ascii a <= 122 -> upper_ascii a = a.
Proof.
  intros R. unfold upper_ascii.
  destruct (Nat.leb_spec 97 (nat_of_ascii a));
    destruct (Nat.leb_spec (nat_of_ascii a) 122); cbn [andb];
    try reflexivity.
  lia.
Qed.

Lemma upper_ascii_same_letter (a b : ascii) :
  upper_ascii a = upper_ascii b <-> same_letter a b.
Proof.
  pose proof (nat_of_ascii_lt a) as La. pose proof (nat_of_ascii_lt b) as Lb.
  destruct (decide (97 <= nat_of_ascii a <= 122)) as [Ra|Ra];
    destruct (decide (97 <= nat_of_ascii b <= 122)) as [Rb|Rb].
  - split.
    + intros E. apply (f_equal nat_of_ascii) in E.
      rewrite !upper_ascii_lower in E by assumption.
      left. apply nat_of_ascii_inj. lia.
    + intros [->|(n & Rn & [[E1 E2]|[E1 E2]])]; [reflexivity | lia | lia].
  - rewrite (upper_ascii_other b) by assumption. split.
    + intros E. apply (f_equal nat_of_ascii) in E.
      rewrite upper_ascii_lower in E by assumption.
      right. exists (nat_of_ascii b). lia.
    + intros [->|(n & Rn & [[E1 E2]|[E1 E2]])]; [tauto | lia |].
      apply nat_of_ascii_inj. rewrite upper_ascii_lower by assumption. lia.
  - rewrite (upper_ascii_other a) by assumption. split.
    + intros E. apply (f_equal nat_of_ascii) in E.
      rewrite upper_ascii_lower in E by assumption.
      right. exists (nat_of_ascii a). lia.
    + intros [->|(n & Rn & [[E1 E2]|[E1 E2]])]; [tauto | | lia].
      apply nat_of_ascii_inj. rewrite upper_ascii_lower by assumption. lia.
  - rewrite (upper_ascii_other a), (upper_ascii_other b) by assumption.
    split; [now left |].
    intros [->|(n & Rn & [[E1 E2]|[E1 E2]])]; [reflexivity | lia | lia].
Qed.

(** [toUpperCase] decides case-insensitive equality. *)
Lemma toUpperCase_eq_ignore_case (s t : string) :
  toUpperCase s = toUpperCase t <-> eq_ignore_case s t.
Proof.
  split.
  - revert t. induction s as [|a s IH]; intros [|b t] E;
      try discriminate; [constructor |].
    cbn [toUpperCase] in E. injection E as E1 E2.
    constructor; [now apply upper_ascii_same_letter | now apply IH].
  - induction 1 as [|a b s t L _ IH]; [reflexivity |].
    cbn [toUpperCase]. f_equal; [now apply upper_ascii_same_letter | exact IH].
Qed.

End CaseFacts.

Section MatchFacts.

Context `{UrlPatternLib} {AdditionalDataType : Type}.
Implicit Types (route : Route) (request : RouterRequest AdditionalDataType).

(** What [Route.match] computes, for every method of the Route: the path
    matches and the two method strings are equal up to letter case. *)
Lemma Route_match_doesMatch route request :
  doesMatch (Route_match route request) = true <->
  is_Some (matchPath route request) /\
  Js.eq_ignore_case (Methods_string (method route)) (req_method request).
Proof.
  unfold Route_match. cbn [doesMatch].
  rewrite andb_true_iff, String.eqb_eq, CaseFacts.toUpperCase_eq_ignore_case.
  destruct (matchPath route request); cbn [Js.truthy].
  - split; intros [_ E]; eauto.
  - split; intros [E _]; [discriminate | now destruct E].
Qed.

(** The half of C1 about the methods other than ANY holds. *)
Lemma Route_match_method route request :
  method route <> ANY ->
  (doesMatch (Route_match route request) = true <->
   is_Some (matchPath route request) /\
   Js.eq_ignore_case (Methods_string (method route)) (req_method request)).
Proof. intros _. apply Route_match_doesMatch. Qed.

(** A Route with method ANY answers only requests whose method string is
    itself ANY, up to letter case. *)
Lemma Route_match_ANY route request :
  method route = ANY ->
  (doesMatch (Route_match route request) = true <->
   is_Some (matchPath route request) /\
   Js.eq_ignore_case "ANY" (req_method request)).
Proof. intros E. rewrite Route_match_doesMatch, E. reflexivity. Qed.

End MatchFacts.

Section MatchExamples.

Import Scenario SegmentPatterns.

(** C1 fails on the code: a Route registered with method ANY on the path
    [/x] does not match the request [GET /x/], although its pattern
    matches the path. *)
Theorem Route_match_ANY_rejects_GET :
  exists h route,
    createRoute 0 anyOptions [rootRouter] = (h, Return route) /\
    method route = ANY /\
    matchPath route getRequest = Some [] /\
    doesMatch (Route_match route getRequest) = false.
Proof. do 2 eexists. repeat split. Qed.

End MatchExamples.

(** ** Registration and construction *)

(** Unfolds the operations of the stateful computations. *)
Ltac run_state :=
  cbv [mbind mret stateful_bind stateful_ret read write lift throw
       get_state put_state]; lazy beta iota.

Section RegistrationFacts.

Context `{UrlPatternLib} {Value : Type}.
Implicit Types (h : list (Router Value)) (R : Router Value).
Implicit Types (options : RouteOptions).

Lemma deref_Some h r R : h !! r = Some R -> deref h r = Return R.
Proof. unfold deref. now intros ->. Qed.

Lemma deref_Return h r R : deref h r = Return R -> h !! r = Some R.
Proof. unfold deref. destruct (h !! r); now intros [= ->]. Qed.

Lemma deref_alloc h R : deref (h ++ [R]) (length h) = Return R.
Proof. apply deref_Some. now apply list_lookup_middle. Qed.

Lemma write_alloc h R R' : <[length h := R']> (h ++ [R]) = h ++ [R'].
Proof.
  rewrite insert_app_r_alt by lia. now rewrite Nat.sub_diag.
Qed.

Lemma deref_write h r R R' :
  h !! r = Some R -> deref (<[r := R']> h) r = Return R'.
Proof.
  intros E. apply deref_Some, list_lookup_insert_eq.
  now apply lookup_lt_Some in E.
Qed.

Lemma createRoute_rejected this options h :
  rejected options = true ->
  createRoute this options h =
    (h, Throw (ErrorMsg
       "Cannot have handler as instance of Router if method is not ANY!")).
Proof. unfold createRoute, rejected. now intros ->. Qed.

Lemma createRoute_accepted this options h R p :
  rejected options = false ->
  h !! this = Some R ->
  UrlPattern_new (fixPath R (opt_path options)) = Some p ->
  createRoute this options h =
    (<[this := set_routes
                 (routes R ++ [constructed this R options p]) R]> h,
     Return (constructed this R options p)).
Proof.
  unfold createRoute, rejected, Route_new, createUrlPattern.
  intros -> E P. run_state. cbn [andb].
  rewrite (deref_Some _ _ _ E), P. lazy beta iota.
  rewrite (deref_Some _ _ _ E). reflexivity.
Qed.

(** A call of [createRoute] that returns has appended the Route it
    returns to the routes of [this], and changed nothing else. *)
Lemma createRoute_Return this options h h' route :
  createRoute this options h = (h', Return route) ->
  exists R p,
    h !! this = Some R /\
    UrlPattern_new (fixPath R (opt_path options)) = Some p /\
    route = constructed this R options p /\
    h' = <[this := set_routes (routes R ++ [route]) R]> h.
Proof.
  unfold createRoute, Route_new, createUrlPattern.
  destruct (negb _ && _); [discriminate |]. run_state.
  destruct (deref h this) as [R| |] eqn:D; try discriminate.
  destruct (UrlPattern_new _) as [p|] eqn:P; try discriminate.
  lazy beta iota. rewrite D. intros [= <- <-]. exists R, p.
  apply deref_Return in D. auto.
Qed.

(** A call of [createRoute] that does not return leaves the store as it
    was. *)
Lemma createRoute_failure this options h h' (r : result Route) :
  createRoute this options h = (h', r) ->
  (forall route, r <> Return route) -> h' = h.
Proof.
  unfold createRoute, Route_new, createUrlPattern.
  destruct (negb _ && _); [now intros [= <- <-] |]. run_state.
  destruct (deref h this) as [R| |] eqn:D; try now intros [= <- <-].
  destruct (UrlPattern_new _) as [p|] eqn:P; try now intros [= <- <-].
  lazy beta iota. rewrite D. intros [= <- <-] N. now destruct (N _ eq_refl).
Qed.

(** C8: registering a nested Router as handler under a method other than
    ANY (also an omitted method, which is not ANY) throws the
    invalid-definition error and leaves the store, hence the routes of the
    Router, as they were; under ANY the registration appends a Route that
    is not a middleware and is flagged as a Router handler, whatever the
    [isMiddleware] option says. *)
Theorem createRoute_nested_router this nested (path : string)
  (isMw : option bool) h R p :
  h !! this = Some R ->
  UrlPattern_new (fixPath R path) = Some p ->
  (forall m : option Methods, m <> Some ANY ->
     createRoute this
       {| opt_path := path; opt_handler := RouterHandler nested;
          opt_method := m; opt_isMiddleware := isMw |} h =
     (h, Throw (ErrorMsg
        "Cannot have handler as instance of Router if method is not ANY!")))
  /\
  (exists route,
     createRoute this
       {| opt_path := path; opt_handler := RouterHandler nested;
          opt_method := Some ANY; opt_isMiddleware := isMw |} h =
     (<[this := set_routes (routes R ++ [route]) R]> h, Return route) /\
     method route = ANY /\
     handler route = RouterHandler nested /\
     isMiddleware route = false /\
     isRouterHandler route = true).
Proof.
  intros E P. split.
  - intros m N. apply createRoute_rejected.
    destruct m as [[]|]; try reflexivity. now destruct N.
  - eexists. split; [now apply (createRoute_accepted _ _ _ R p) |].
    repeat split.
Qed.

(** The loop of [setBasePath] over a Router without routes stops at once. *)
Lemma setBasePath_loop_empty fuel this h R :
  h !! this = Some R -> routes R = [] ->
  setBasePath_loop (S fuel) this 0 [] h = (h, Return []).
Proof.
  intros E N. cbn [setBasePath_loop]. run_state.
  rewrite (deref_Some _ _ _ E), N. reflexivity.
Qed.

(** The Router object that [new Router(options)] allocates. *)
Lemma Router_new_fresh fuel (options : RouterOptions Value) h :
  Router_new (S fuel) options h =
    (h ++ [{| basePath :=
                fixPath (Value := Value)
                  {| basePath := "/"; isWaterfall := true; routes := [];
                     customResponseTransformer :=
                       ro_customResponseTransformer options |}
                  (Js.or_default (default "" (ro_basePath options)) "/");
              isWaterfall := true;
              routes := [];
              customResponseTransformer :=
                ro_customResponseTransformer options |}],
     Return (length h)).
Proof.
  assert (Js.or_bool (ro_waterfallMiddleware options) true = true) as W
    by now destruct (ro_waterfallMiddleware options) as [[]|].
  unfold Router_new, setBasePath. run_state. rewrite W.
  repeat (rewrite ?deref_alloc, ?write_alloc; lazy beta iota).
  erewrite setBasePath_loop_empty;
    [| now apply list_lookup_middle | reflexivity].
  repeat (rewrite ?deref_alloc, ?write_alloc; lazy beta iota).
  reflexivity.
Qed.

(** C2 fails on the code: a Router constructed with the waterfall option
    explicitly [false] has [isWaterfall = true], because the constructor
    computes [options.waterfallMiddleware || true]. *)
Theorem Router_new_waterfall_false fuel (basePath' : option string)
  (transformer : option (Value -> Value)) h :
  exists R,
    Router_new (S fuel)
      {| ro_basePath := basePath'; ro_waterfallMiddleware := Some false;
         ro_customResponseTransformer := transformer |} h =
      (h ++ [R], Return (length h)) /\
    isWaterfall R = true.
Proof. eexists. split; [apply Router_new_fresh | reflexivity]. Qed.

(** *** The rebuild loop of [setBasePath] *)

Lemma setBasePath_loop_step fuel this i newRoutes h R oldRoute :
  h !! this = Some R -> routes R !! i = Some oldRoute ->
  setBasePath_loop (S fuel) this i newRoutes h =
    match createRoute this (rebuild_options oldRoute) h with
    | (h', Return newRoute) =>
        setBasePath_loop fuel this (S i) (newRoutes ++ [newRoute]) h'
    | (h', Throw e) => (h', Throw e)
    | (h', OutOfFuel) => (h', OutOfFuel)
    end.
Proof.
  intros E L. cbn [setBasePath_loop]. run_state.
  rewrite (deref_Some _ _ _ E), L. reflexivity.
Qed.

(** Each Route the loop creates is pushed onto the array the loop
    iterates over, so the iterator never reaches the end of the array:
    the loop does not return, whatever the fuel. *)
Lemma setBasePath_loop_no_return fuel :
  forall this i newRoutes h R,
    h !! this = Some R -> i < length (routes R) ->
    forall h' rs, setBasePath_loop fuel this i newRoutes h <> (h', Return rs).
Proof.
  induction fuel as [|fuel IH]; intros this i newRoutes h R E L h' rs;
    [discriminate |].
  destruct (lookup_lt_is_Some_2 _ _ L) as [oldRoute O].
  rewrite (setBasePath_loop_step _ _ _ _ _ _ _ E O).
  destruct (createRoute this _ h) as [h1 [newRoute| |]] eqn:C;
    try discriminate.
  apply createRoute_Return in C as (R0 & p & E0 & _ & _ & ->).
  assert (R0 = R) as -> by congruence.
  apply (IH _ _ _ _ (set_routes (routes R ++ [newRoute]) R)).
  - apply list_lookup_insert_eq. now apply lookup_lt_Some in E.
  - cbn [routes set_routes]. rewrite length_app. cbn [length]. lia.
Qed.

(** X17: [setBasePath] returns only on a Router without routes.  On a
    Router that owns a Route it does not return, with any fuel and any
    pattern library: it is cut off, or a registration throws. *)
Lemma setBasePath_no_return fuel this (path : option string) h R :
  h !! this = Some R -> routes R <> [] ->
  forall h' b, setBasePath fuel this path h <> (h', Return b).
Proof.
  intros E N h' b. unfold setBasePath. run_state.
  assert (this < length h) as L by now apply lookup_lt_Some in E.
  rewrite (deref_Some _ _ _ E). lazy beta iota.
  rewrite (deref_write _ _ _ _ E). lazy beta iota.
  rewrite list_insert_insert_eq.
  match goal with
  | |- context [setBasePath_loop fuel this 0 [] ?h2] =>
      destruct (setBasePath_loop fuel this 0 [] h2) as [h3 [rs| |]] eqn:Loop
  end; try discriminate.
  exfalso. revert Loop. eapply setBasePath_loop_no_return.
  - now apply list_lookup_insert_eq.
  - cbn [routes set_basePath]. destruct (routes R); [congruence | cbn; lia].
Qed.

(** When no registration can throw, the loop runs out of every fuel. *)
Lemma setBasePath_loop_diverges fuel :
  (forall spec, is_Some (UrlPattern_new spec)) ->
  forall this i newRoutes h R,
    h !! this = Some R -> i < length (routes R) ->
    Forall (fun r => rejected (rebuild_options r) = false) (routes R) ->
    exists h', setBasePath_loop fuel this i newRoutes h = (h', OutOfFuel).
Proof.
  intros total.
  induction fuel as [|fuel IH]; intros this i newRoutes h R E L F;
    [now exists h |].
  destruct (lookup_lt_is_Some_2 _ _ L) as [oldRoute O].
  rewrite (setBasePath_loop_step _ _ _ _ _ _ _ E O).
  assert (rejected (rebuild_options oldRoute) = false) as A.
  { rewrite Forall_lookup in F. exact (F _ _ O). }
  destruct (total (fixPath R (opt_path (rebuild_options oldRoute))))
    as [p P].
  rewrite (createRoute_accepted _ _ _ _ _ A E P).
  apply (IH _ _ _ _
           (set_routes
              (routes R ++ [constructed this R (rebuild_options oldRoute) p])
              R)).
  - apply list_lookup_insert_eq. now apply lookup_lt_Some in E.
  - cbn [routes set_routes]. rewrite length_app. cbn [length]. lia.
  - cbn [routes set_routes]. apply Forall_app. split; [exact F |].
    constructor; [| constructor]. revert A. unfold rejected.
    cbn. now destruct (handler oldRoute).
Qed.

Lemma setBasePath_diverges fuel this (path : option string) h R :
  (forall spec, is_Some (UrlPattern_new spec)) ->
  h !! this = Some R -> routes R <> [] ->
  Forall (fun r => rejected (rebuild_options r) = false) (routes R) ->
  exists h', setBasePath fuel this path h = (h', OutOfFuel).
Proof.
  intros total E N F. unfold setBasePath. run_state.
  assert (this < length h) as L by now apply lookup_lt_Some in E.
  rewrite (deref_Some _ _ _ E). lazy beta iota.
  rewrite (deref_write _ _ _ _ E). lazy beta iota.
  rewrite list_insert_insert_eq.
  match goal with
  | |- context [setBasePath_loop fuel this 0 [] ?h2] =>
      destruct (setBasePath_loop_diverges fuel total this 0 [] h2
                  (set_basePath
                     (fixPath (set_basePath "/" R)
                        (Js.or_default (default "" path) "/"))
                     (set_basePath "/" R))) as [h3 ->]
  end; eauto.
  - now apply list_lookup_insert_eq.
  - cbn [routes set_basePath]. destruct (routes R); [congruence | cbn; lia].
Qed.

End RegistrationFacts.

Section RegistrationExamples.

Import Scenario SegmentPatterns.

Lemma compile_total (spec : string) : is_Some (UrlPattern_new spec).
Proof. now eexists. Qed.

Example createRoute_widgets :
  createRoute 0 widgetsOptions [rootRouter] =
    ([set_routes [constructed 0 rootRouter widgetsOptions
                    [Literal ""; Literal "widgets"; Literal ""]] rootRouter],
     Return (constructed 0 rootRouter widgetsOptions
               [Literal ""; Literal "widgets"; Literal ""])).
Proof. reflexivity. Qed.

(** With fuel for three turns of the loop, the store holds the old Route
    and three Routes rebuilt under [/api/], and the loop has not ended. *)
Example setBasePath_three_turns :
  let old := constructed 0 rootRouter widgetsOptions
               [Literal ""; Literal "widgets"; Literal ""] in
  let new := constructed 0 apiRouter (rebuild_options old)
               [Literal ""; Literal "api"; Literal "widgets"; Literal ""] in
  setBasePath 3 0 (Some "/api/") [set_routes [old] rootRouter] =
    ([set_routes [old; new; new; new] apiRouter], OutOfFuel)
  /\ formattedPath (path new) = "/api/widgets/".
Proof. split; reflexivity. Qed.

(** C6 fails on the code: after the route [/widgets] is added to a Router,
    [setBasePath("/api/")] does not complete.  [createRoute] pushes every
    rebuilt Route onto [this.routes], the array the loop is iterating
    over, so the loop runs out of every amount of fuel. *)
Theorem setBasePath_rebuild_diverges :
  exists h route,
    createRoute 0 widgetsOptions [rootRouter] = (h, Return route) /\
    formattedPath (path route) = "/widgets/" /\
    forall fuel, exists h',
      setBasePath fuel 0 (Some "/api/") h = (h', OutOfFuel).
Proof.
  do 2 eexists. split; [apply createRoute_widgets |].
  split; [reflexivity |]. intros fuel.
  eapply setBasePath_diverges.
  - exact compile_total.
  - reflexivity.
  - discriminate.
  - repeat constructor.
Qed.

Lemma createRoute_nested_router_witness :
  [rootRouter; apiRouter] !! 0 = Some rootRouter /\
  UrlPattern_new (fixPath rootRouter "/api") =
    Some [Literal ""; Literal "api"; Literal ""] /\
  ((forall m : option Methods, m <> Some ANY ->
      createRoute 0
        {| opt_path := "/api"; opt_handler := RouterHandler 1;
           opt_method := m; opt_isMiddleware := Some true |}
        [rootRouter; apiRouter] =
      ([rootRouter; apiRouter], Throw (ErrorMsg
         "Cannot have handler as instance of Router if method is not ANY!")))
   /\
   (exists route,
      createRoute 0
        {| opt_path := "/api"; opt_handler := RouterHandler 1;
           opt_method := Some ANY; opt_isMiddleware := Some true |}
        [rootRouter; apiRouter] =
      (<[0 := set_routes (routes rootRouter ++ [route]) rootRouter]>
         [rootRouter; apiRouter], Return route) /\
      method route = ANY /\
      handler route = RouterHandler 1 /\
      isMiddleware route = false /\
      isRouterHandler route = true)).
Proof.
  split; [reflexivity |]. split; [reflexivity |].
  apply (createRoute_nested_router 0 1 "/api" (Some true)
           [rootRouter; apiRouter] rootRouter
           [Literal ""; Literal "api"; Literal ""]); reflexivity.
Defined.

Example createRoute_nested_PUT :
  createRoute 0
    {| opt_path := "/api"; opt_handler := RouterHandler 1;
       opt_method := Some PUT; opt_isMiddleware := None |}
    [rootRouter; apiRouter] =
  ([rootRouter; apiRouter], Throw (ErrorMsg
     "Cannot have handler as instance of Router if method is not ANY!")).
Proof. reflexivity. Qed.

End RegistrationExamples.

(** ** Route discovery *)

Section DiscoveryFacts.

Context `{UrlPatternLib} {AdditionalDataType Value : Type}.
Implicit Types (h : list (Router Value)) (R : Router Value).
Implicit Types (request : RouterRequest AdditionalDataType).
Implicit Types (recurse : nat -> result (list MatchingRoute)).
Implicit Types (rs : list Route) (found : list MatchingRoute).

Lemma findMatchingRoutes_unfold fuel h this request R :
  h !! this = Some R ->
  findMatchingRoutes (S fuel) h this request =
    findMatchingRoutes_loop
      (fun nested => findMatchingRoutes fuel h nested request)
      request (routes R) [].
Proof.
  intros E. cbn [findMatchingRoutes]. unfold mbind, result_bind.
  now rewrite (deref_Some _ _ _ E).
Qed.

(** One turn of the loop, by the kind of handler. *)
Lemma loop_nested recurse request route nested rs found
  (ms : list MatchingRoute) :
  handler route = RouterHandler nested -> recurse nested = Return ms ->
  findMatchingRoutes_loop recurse request (route :: rs) found =
  findMatchingRoutes_loop recurse request rs (found ++ ms).
Proof.
  intros E N. cbn [findMatchingRoutes_loop]. rewrite E.
  unfold mbind, result_bind. now rewrite N.
Qed.

Lemma loop_match recurse request route f rs found :
  handler route = FunctionHandler f ->
  doesMatch (Route_match route request) = true ->
  findMatchingRoutes_loop recurse request (route :: rs) found =
  findMatchingRoutes_loop recurse request rs (found ++ [matching request route]).
Proof. intros E M. cbn [findMatchingRoutes_loop]. now rewrite E, M. Qed.

Lemma loop_no_match recurse request route f rs found :
  handler route = FunctionHandler f ->
  doesMatch (Route_match route request) = false ->
  findMatchingRoutes_loop recurse request (route :: rs) found =
  findMatchingRoutes_loop recurse request rs found.
Proof. intros E M. cbn [findMatchingRoutes_loop]. now rewrite E, M. Qed.

(** What is found is kept, in order, in front of what the rest of the
    loop finds. *)
Lemma loop_found recurse request rs :
  forall found,
    findMatchingRoutes_loop recurse request rs found =
      more ← findMatchingRoutes_loop recurse request rs [];
      mret (found ++ more).
Proof.
  unfold mbind, mret, result_bind, result_ret.
  induction rs as [|route rs IH]; intros found.
  - cbn. now rewrite app_nil_r.
  - cbn [findMatchingRoutes_loop]. unfold mbind, result_bind.
    destruct (handler route) as [f|nested].
    + destruct (doesMatch _); [| apply IH].
      rewrite (IH (found ++ _)), (IH ([] ++ _)).
      destruct (findMatchingRoutes_loop recurse request rs []);
        try reflexivity.
      now rewrite <- app_assoc.
    + destruct (recurse nested) as [sub| |]; try reflexivity.
      rewrite (IH (found ++ _)), (IH ([] ++ _)).
      destruct (findMatchingRoutes_loop recurse request rs []);
        try reflexivity.
      now rewrite <- app_assoc.
Qed.

(** Splicing in place: the result for a list of Routes is the
    contribution of its first Route followed by the result for the
    rest. *)
Lemma loop_cons recurse request route rs :
  findMatchingRoutes_loop recurse request (route :: rs) [] =
    first ← contribution recurse request route;
    more ← findMatchingRoutes_loop recurse request rs [];
    mret (first ++ more).
Proof.
  cbn [findMatchingRoutes_loop]. unfold contribution.
  destruct (handler route) as [f|nested].
  - destruct (doesMatch _); [| cbn].
    + now rewrite loop_found.
    + unfold mbind, mret, result_bind, result_ret.
      now destruct (findMatchingRoutes_loop recurse request rs []).
  - unfold mbind at 1 3. unfold result_bind.
    destruct (recurse nested) as [sub| |]; try reflexivity.
    now rewrite loop_found.
Qed.

(** The loop returns when every nested call returns. *)
Lemma loop_returns recurse request rs :
  (forall route nested,
     route ∈ rs -> handler route = RouterHandler nested ->
     exists sub, recurse nested = Return sub) ->
  forall found,
    exists ms, findMatchingRoutes_loop recurse request rs found = Return ms.
Proof.
  induction rs as [|route rs IH]; intros Sub found; [now eexists |].
  cbn [findMatchingRoutes_loop].
  assert (forall route' nested,
            route' ∈ rs -> handler route' = RouterHandler nested ->
            exists sub, recurse nested = Return sub) as Sub'
    by (intros route' nested I; apply Sub; now right).
  destruct (handler route) as [f|nested] eqn:E.
  - destruct (doesMatch _); now apply IH.
  - destruct (Sub route nested) as [sub ->]; [now left | exact E |].
    now apply IH.
Qed.

(** Every entry of the result, beyond those already found, comes from a
    nested call or is a matching Route with a function as handler. *)
Lemma loop_Forall (P : MatchingRoute -> Prop) recurse request rs :
  (forall route f,
     route ∈ rs -> handler route = FunctionHandler f ->
     doesMatch (Route_match route request) = true ->
     P (matching request route)) ->
  (forall nested sub, recurse nested = Return sub -> Forall P sub) ->
  forall found (ms : list MatchingRoute),
    Forall P found ->
    findMatchingRoutes_loop recurse request rs found = Return ms ->
    Forall P ms.
Proof.
  intros Fn Sub.
  induction rs as [|route rs IH]; intros found ms F;
    [now intros [= <-] |].
  cbn [findMatchingRoutes_loop].
  assert (forall route' f,
            route' ∈ rs -> handler route' = FunctionHandler f ->
            doesMatch (Route_match route' request) = true ->
            P (matching request route')) as Fn'
    by (intros route' f I; apply Fn; now right).
  destruct (handler route) as [f|nested] eqn:E.
  - destruct (doesMatch _) eqn:M; [| now apply IH].
    apply IH; [exact Fn' |]. apply Forall_app. split; [exact F |].
    constructor; [| constructor]. apply (Fn route f); [now left | easy..].
  - unfold mbind, result_bind.
    destruct (recurse nested) as [sub| |] eqn:N; try discriminate.
    apply IH; [exact Fn' |]. apply Forall_app. split; [exact F |].
    now apply (Sub nested).
Qed.

(** The result never holds a Route whose handler is a Router, only
    Routes with a function as handler that match the request. *)
Lemma findMatchingRoutes_plain fuel :
  forall h this request (ms : list MatchingRoute),
    findMatchingRoutes fuel h this request = Return ms ->
    Forall (fun m =>
              instanceofRouter (handler (mr_route m)) = false /\
              doesMatch (Route_match (mr_route m) request) = true /\
              mr_match m = pathMatch (Route_match (mr_route m) request))
           ms.
Proof.
  induction fuel as [|fuel IH]; intros h this request ms; [discriminate |].
  cbn [findMatchingRoutes]. unfold mbind at 1. unfold result_bind at 1.
  destruct (deref h this) as [R| |]; try discriminate.
  apply loop_Forall; [| | constructor].
  - intros route f _ E M. cbn. now rewrite E.
  - intros nested sub. apply IH.
Qed.

Lemma loop_plain recurse request route rs found :
  plain_match request route ->
  findMatchingRoutes_loop recurse request (route :: rs) found =
  findMatchingRoutes_loop recurse request rs
    (found ++ [matching request route]).
Proof.
  intros [E M]. destruct (handler route) as [f|] eqn:F; [| discriminate].
  now apply (loop_match _ _ _ f).
Qed.

(** The loop only asks [recurse] about the Routers its Routes mount, and
    keeps its result when those answers stay the same. *)
Lemma loop_mono recurse recurse' request rs :
  (forall nested (sub : list MatchingRoute),
     recurse nested = Return sub -> recurse' nested = Return sub) ->
  forall found (ms : list MatchingRoute),
    findMatchingRoutes_loop recurse request rs found = Return ms ->
    findMatchingRoutes_loop recurse' request rs found = Return ms.
Proof.
  intros Sub. induction rs as [|route rs IH]; intros found ms; [easy |].
  cbn [findMatchingRoutes_loop].
  destruct (handler route) as [f|nested].
  - destruct (doesMatch _); apply IH.
  - unfold mbind, result_bind.
    destruct (recurse nested) as [sub| |] eqn:N; try discriminate.
    rewrite (Sub _ _ N). apply IH.
Qed.

(** More fuel does not change a result: the result of the discovery is a
    function of the store, the Router and the request. *)
Lemma findMatchingRoutes_more_fuel h request fuel :
  forall this (ms : list MatchingRoute) fuel',
    findMatchingRoutes fuel h this request = Return ms ->
    fuel <= fuel' ->
    findMatchingRoutes fuel' h this request = Return ms.
Proof.
  induction fuel as [|fuel IH]; intros this ms fuel'; [discriminate |].
  intros F L. destruct fuel' as [|fuel']; [lia |].
  revert F. destruct (h !! this) as [R|] eqn:E.
  - rewrite !(findMatchingRoutes_unfold _ _ _ _ _ E). apply loop_mono.
    intros nested sub N. apply (IH _ _ _ N). lia.
  - cbn [findMatchingRoutes]. unfold deref. now rewrite E.
Qed.

(** The order of discovery, in general: the result on a Router is the
    contributions of its Routes, one after the other. *)
Lemma findMatchingRoutes_cons fuel h this request R route rs :
  h !! this = Some R -> routes R = route :: rs ->
  findMatchingRoutes (S fuel) h this request =
    first ← contribution
              (fun nested => findMatchingRoutes fuel h nested request)
              request route;
    more ← findMatchingRoutes_loop
             (fun nested => findMatchingRoutes fuel h nested request)
             request rs [];
    mret (first ++ more).
Proof.
  intros E N. rewrite (findMatchingRoutes_unfold _ _ _ _ _ E), N.
  apply loop_cons.
Qed.

(** C7: with routes [A; B; E] on a Router, [B] mounting a Router with
    routes [C; D], and a request that [A], [C], [D] and [E] match, the
    result is exactly [A; C; D; E]; and no result of
    [findMatchingRoutes], on any Router of the store, holds a Route
    whose handler is a Router. *)
Theorem findMatchingRoutes_order fuel h parent child request
  (A B C D E : Route) (Rp Rc : Router Value) :
  h !! parent = Some Rp -> routes Rp = [A; B; E] ->
  h !! child = Some Rc -> routes Rc = [C; D] ->
  handler B = RouterHandler child ->
  plain_match request A -> plain_match request C ->
  plain_match request D -> plain_match request E ->
  findMatchingRoutes (S (S fuel)) h parent request =
    Return [matching request A; matching request C;
            matching request D; matching request E] /\
  (forall fuel' this (ms : list MatchingRoute),
     findMatchingRoutes fuel' h this request = Return ms ->
     Forall (fun m => instanceofRouter (handler (mr_route m)) = false) ms).
Proof.
  intros EP RP EC RC HB MA MC MD ME. split.
  - rewrite (findMatchingRoutes_unfold _ _ _ _ _ EP), RP.
    rewrite (loop_plain _ _ _ _ _ MA).
    rewrite (loop_nested _ _ _ child _ _
               [matching request C; matching request D] HB).
    + now rewrite (loop_plain _ _ _ _ _ ME).
    + rewrite (findMatchingRoutes_unfold _ _ _ _ _ EC), RC.
      now rewrite (loop_plain _ _ _ _ _ MC), (loop_plain _ _ _ _ _ MD).
  - intros fuel' this ms F. apply findMatchingRoutes_plain in F.
    eapply Forall_impl; [exact F |]. now intros m [I _].
Qed.

(** *** Termination and the nesting graph *)

Lemma closedb_closed h : closedb h = true -> closed h.
Proof.
  unfold closedb, closed, mounts. intros C a b (R & route & E & I & F).
  rewrite forallb_forall in C. apply list_elem_of_lookup_2 in E.
  apply list_elem_of_In, C in E. rewrite forallb_forall in E.
  apply list_elem_of_In, E in I. rewrite F in I.
  apply lookup_lt_is_Some. now apply Nat.ltb_lt in I.
Qed.

Lemma loop_no_throw recurse request rs :
  (forall route nested e,
     route ∈ rs -> handler route = RouterHandler nested ->
     recurse nested <> Throw e) ->
  forall found e, findMatchingRoutes_loop recurse request rs found <> Throw e.
Proof.
  induction rs as [|route rs IH]; intros Sub found e; [discriminate |].
  cbn [findMatchingRoutes_loop].
  assert (forall route' nested e',
            route' ∈ rs -> handler route' = RouterHandler nested ->
            recurse nested <> Throw e') as Sub'
    by (intros route' nested e' I; apply Sub; now right).
  destruct (handler route) as [f|nested] eqn:E.
  - destruct (doesMatch _); now apply IH.
  - unfold mbind, result_bind.
    destruct (recurse nested) as [sub|e'|] eqn:N; [now apply IH | | easy].
    exfalso. apply (Sub route nested e'); [now left | easy..].
Qed.

(** In a closed store the discovery throws nothing. *)
Lemma findMatchingRoutes_no_throw h request :
  closed h ->
  forall fuel this e,
    is_Some (h !! this) -> findMatchingRoutes fuel h this request <> Throw e.
Proof.
  intros C. induction fuel as [|fuel IH]; intros this e [R E];
    [discriminate |].
  rewrite (findMatchingRoutes_unfold _ _ _ _ _ E).
  apply loop_no_throw. intros route nested e' I F. apply IH.
  apply (C this). now exists R, route.
Qed.

(** A nested call that is cut off cuts off the loop. *)
Lemma loop_cut_off recurse request rs :
  (forall route nested e,
     route ∈ rs -> handler route = RouterHandler nested ->
     recurse nested <> Throw e) ->
  (exists route nested,
     route ∈ rs /\ handler route = RouterHandler nested /\
     recurse nested = OutOfFuel) ->
  forall found, findMatchingRoutes_loop recurse request rs found = OutOfFuel.
Proof.
  induction rs as [|route rs IH]; intros Sub (cut & n & I & F & O) found.
  - now apply elem_of_nil in I.
  - cbn [findMatchingRoutes_loop].
    assert (forall route' nested e',
              route' ∈ rs -> handler route' = RouterHandler nested ->
              recurse nested <> Throw e') as Sub'
      by (intros route' nested e' I'; apply Sub; now right).
    assert (cut = route \/ cut ∈ rs) as [->|I']
      by (apply elem_of_cons in I; tauto).
    + rewrite F. unfold mbind, result_bind. now rewrite O.
    + assert (exists route' nested,
                route' ∈ rs /\ handler route' = RouterHandler nested /\
                recurse nested = OutOfFuel) as Cut by now exists cut, n.
      destruct (handler route) as [f|nested] eqn:E.
      * destruct (doesMatch _); now apply IH.
      * unfold mbind, result_bind.
        destruct (recurse nested) as [sub|e'|] eqn:N;
          [now apply IH | | reflexivity].
        exfalso. apply (Sub route nested e'); [now left | easy..].
Qed.

(** A Router that is mounted, directly or not, below itself: the
    recursion is cut off at every depth. *)
Lemma cyclic_cut_off h request :
  closed h ->
  forall fuel r,
    tc (mounts h) r r -> findMatchingRoutes fuel h r request = OutOfFuel.
Proof.
  intros C. induction fuel as [|fuel IH]; intros r T; [reflexivity |].
  assert (exists b, mounts h r b /\ tc (mounts h) b b) as (b & M & Tb).
  { inversion T as [? ? M | ? b ? M T']; subst.
    - now exists r.
    - exists b. split; [exact M |]. eapply tc_r; eauto. }
  destruct M as (R & route & E & I & F).
  rewrite (findMatchingRoutes_unfold _ _ _ _ _ E). apply loop_cut_off.
  - intros route' nested e I' F'. apply findMatchingRoutes_no_throw; [easy |].
    apply (C r). now exists R, route'.
  - exists route, b. auto.
Qed.

Lemma reaching_cut_off h request this r :
  closed h ->
  rtc (mounts h) this r ->
  (forall fuel, findMatchingRoutes fuel h r request = OutOfFuel) ->
  forall fuel, findMatchingRoutes fuel h this request = OutOfFuel.
Proof.
  intros C Reach. induction Reach as [|x y z M _ IH]; [easy |].
  intros O [|fuel]; [reflexivity |].
  destruct M as (R & route & E & I & F).
  rewrite (findMatchingRoutes_unfold _ _ _ _ _ E). apply loop_cut_off.
  - intros route' nested e I' F'. apply findMatchingRoutes_no_throw; [easy |].
    apply (C x). now exists R, route'.
  - exists route, y. auto.
Qed.

(** Along a path without repetition in a store of [length h] objects,
    fuel for the objects not yet visited is enough. *)
Lemma acyclic_returns h request root :
  closed h -> acyclic_from h root ->
  forall fuel (seen : list nat) this,
    rtc (mounts h) root this -> is_Some (h !! this) ->
    NoDup seen ->
    (forall s, s ∈ seen -> s < length h /\ tc (mounts h) s this) ->
    length h <= fuel + length seen ->
    exists ms, findMatchingRoutes fuel h this request = Return ms.
Proof.
  intros C A fuel.
  induction fuel as [|fuel IH]; intros seen this Reach Ex ND Seen Len.
  - exfalso.
    assert (this ∉ seen) as Fresh.
    { intros I. apply (A this Reach). now apply Seen. }
    assert (this :: seen ⊆+ seq 0 (length h)) as Sub.
    { apply NoDup_submseteq; [now constructor |].
      intros x I. apply elem_of_seq. apply elem_of_cons in I as [->|I].
      - apply lookup_lt_is_Some in Ex. lia.
      - apply Seen in I. lia. }
    apply submseteq_length in Sub. rewrite length_seq in Sub.
    cbn [length] in Sub. lia.
  - assert (this ∉ seen) as Fresh.
    { intros I. apply (A this Reach). now apply Seen. }
    destruct Ex as [R E].
    rewrite (findMatchingRoutes_unfold _ _ _ _ _ E). apply loop_returns.
    intros route nested I F.
    assert (mounts h this nested) as M by now exists R, route.
    apply (IH (this :: seen)).
    + eapply rtc_r; eauto.
    + now apply (C this).
    + now constructor.
    + intros s Is. apply elem_of_cons in Is as [->|Is].
      * split; [now apply lookup_lt_Some in E | now apply tc_once].
      * destruct (Seen s Is) as [L T]. split; [exact L |].
        eapply tc_r; eauto.
    + cbn [length]. lia.
Qed.

(** C10: in a store where every mounted Router exists,
    [findMatchingRoutes] returns, given enough fuel, exactly on the
    Routers whose nesting graph has no cycle; on the others it is cut off
    at every depth. *)
Theorem findMatchingRoutes_total_iff_acyclic h this request :
  closed h -> is_Some (h !! this) ->
  ((exists fuel ms, findMatchingRoutes fuel h this request = Return ms)
   <-> acyclic_from h this) /\
  (forall r, rtc (mounts h) this r -> tc (mounts h) r r ->
   forall fuel, findMatchingRoutes fuel h this request = OutOfFuel) /\
  (acyclic_from h this ->
   exists ms, findMatchingRoutes (length h) h this request = Return ms).
Proof.
  intros C Ex.
  assert (forall r, rtc (mounts h) this r -> tc (mounts h) r r ->
          forall fuel, findMatchingRoutes fuel h this request = OutOfFuel)
    as Cut.
  { intros r Reach T. apply (reaching_cut_off _ _ _ r); [easy.. |].
    intros fuel. now apply cyclic_cut_off. }
  assert (acyclic_from h this ->
          exists ms, findMatchingRoutes (length h) h this request = Return ms)
    as Ret.
  { intros A. apply (acyclic_returns h request this C A (length h) []);
      [constructor | exact Ex | constructor | | cbn; lia].
    intros s I. now apply elem_of_nil in I. }
  split; [split |split].
  - intros (fuel & ms & F) r Reach T. rewrite (Cut r Reach T) in F.
    discriminate.
  - intros A. exists (length h). now apply Ret.
  - exact Cut.
  - exact Ret.
Qed.

End DiscoveryFacts.

Section DiscoveryExamples.

Import Scenario SegmentPatterns.

Example registerNested_heap : registerNested [] = (nestedHeap, Return tt).
Proof. reflexivity. Qed.

Example registerCyclic_heap : registerCyclic [] = (cyclicHeap, Return tt).
Proof. reflexivity. Qed.

Example findMatchingRoutes_nested :
  findMatchingRoutes 2 nestedHeap 0 getRequest =
    Return [matching getRequest routeA; matching getRequest routeC;
            matching getRequest routeD; matching getRequest routeE].
Proof. reflexivity. Qed.

Example findMatchingRoutes_cyclic_5 :
  findMatchingRoutes 5 cyclicHeap 0 getRequest = OutOfFuel.
Proof. reflexivity. Qed.

Lemma findMatchingRoutes_order_witness :
  nestedHeap !! 0 = Some (set_routes [routeA; routeB; routeE] rootRouter) /\
  routes (set_routes [routeA; routeB; routeE] rootRouter)
    = [routeA; routeB; routeE] /\
  nestedHeap !! 1 = Some (set_routes [routeC; routeD] rootRouter) /\
  routes (set_routes [routeC; routeD] rootRouter) = [routeC; routeD] /\
  handler routeB = RouterHandler 1 /\
  plain_match getRequest routeA /\ plain_match getRequest routeC /\
  plain_match getRequest routeD /\ plain_match getRequest routeE /\
  (findMatchingRoutes 2 nestedHeap 0 getRequest =
     Return [matching getRequest routeA; matching getRequest routeC;
             matching getRequest routeD; matching getRequest routeE] /\
   (forall fuel' this (ms : list MatchingRoute),
      findMatchingRoutes fuel' nestedHeap this getRequest = Return ms ->
      Forall (fun m => instanceofRouter (handler (mr_route m)) = false)
        ms)).
Proof.
  repeat (split; [reflexivity |]).
  repeat (split; [split; reflexivity |]).
  apply (findMatchingRoutes_order 0 nestedHeap 0 1 getRequest
           routeA routeB routeC routeD routeE
           (set_routes [routeA; routeB; routeE] rootRouter)
           (set_routes [routeC; routeD] rootRouter));
    try reflexivity; split; reflexivity.
Defined.

Lemma findMatchingRoutes_total_iff_acyclic_witness :
  closed nestedHeap /\ is_Some (nestedHeap !! 0) /\
  (((exists fuel ms,
       findMatchingRoutes fuel nestedHeap 0 getRequest = Return ms)
    <-> acyclic_from nestedHeap 0) /\
   (forall r, rtc (mounts nestedHeap) 0 r -> tc (mounts nestedHeap) r r ->
    forall fuel,
      findMatchingRoutes fuel nestedHeap 0 getRequest = OutOfFuel) /\
   (acyclic_from nestedHeap 0 ->
    exists ms,
      findMatchingRoutes (length nestedHeap) nestedHeap 0 getRequest
        = Return ms)).
Proof.
  split; [apply closedb_closed; reflexivity |].
  split; [eexists; reflexivity |].
  apply (findMatchingRoutes_total_iff_acyclic nestedHeap 0 getRequest).
  - apply closedb_closed. reflexivity.
  - eexists. reflexivity.
Defined.

(** Two Routers that mount each other: the discovery is cut off at every
    depth, on either of them. *)
Example findMatchingRoutes_cyclic fuel :
  findMatchingRoutes fuel cyclicHeap 0 getRequest = OutOfFuel.
Proof.
  apply cyclic_cut_off; [apply closedb_closed; reflexivity |].
  apply (tc_l _ 0 1 0); [| apply tc_once].
  - eexists _, _. split; [reflexivity |]. split; [now left | reflexivity].
  - eexists _, _. split; [reflexivity |]. split; [now left | reflexivity].
Qed.

Example nestedHeap_acyclic : acyclic_from nestedHeap 0.
Proof.
  intros r Reach T.
  assert (findMatchingRoutes 2 nestedHeap 0 getRequest = OutOfFuel) as Cut.
  { apply (reaching_cut_off _ _ _ r);
      [apply closedb_closed; reflexivity | exact Reach |].
    intros fuel. apply cyclic_cut_off;
      [apply closedb_closed; reflexivity | exact T]. }
  discriminate.
Qed.

End DiscoveryExamples.

(** ** Dispatch *)

Section ServeFacts.

Context `{UrlPatternLib} {AdditionalDataType Value : Type}.
Variable emptyResponse : Value.
Variable functions :
  nat -> RouterRequest AdditionalDataType -> RouterResponse Value ->
  option AdditionalDataType ->
  result (RouterRequest AdditionalDataType * RouterResponse Value).
Implicit Types (h : list (Router Value)).
Implicit Types (additionalData : option AdditionalDataType).

(** C9: on a request that is already a RouterRequest, [serve] resolves
    with no value for every Router, store and fuel, hence also when no
    route matches: it has no effect (no route matching, no handler call,
    no response built, nothing logged) and leaves the request as it is;
    the response is the one passed in, or a fresh one. *)
Theorem serve_wrapped fuel h this (wrapped : RouterRequest AdditionalDataType)
  additionalData (res : option (RouterResponse Value)) :
  serve emptyResponse functions fuel h this (inl wrapped) additionalData res =
    Return {| returned := None;
              served :=
                {| d_request := wrapped;
                   d_response :=
                     default (RouterResponse_new emptyResponse wrapped) res;
                   d_effects := [] |} |}.
Proof. reflexivity. Qed.

(** Whatever [serve] resolves with, it is [undefined]. *)
Lemma serve_returned fuel h this request additionalData res
  (out : Served AdditionalDataType Value) :
  serve emptyResponse functions fuel h this request additionalData res
    = Return out ->
  returned out = None.
Proof.
  unfold serve. destruct (negb _); [| now intros [= <-]].
  unfold mbind, result_bind.
  destruct (findMatchingRoutes _ _ _ _); try discriminate.
  destruct (find _ _); try discriminate.
  destruct (deref h this); try discriminate.
  destruct (if (0 <? _)%nat then _ else _); try discriminate.
  destruct (invoke _ _ _ _); try discriminate.
  now intros [= <-].
Qed.

(** When a raw request is dispatched successfully, the built response is
    the last thing written to the console, and it is what
    [buildResponse] makes of the final response under the transform of
    the Router. *)
Lemma serve_logs_built fuel h this (incoming : IncomingRequest)
  additionalData res (out : Served AdditionalDataType Value) :
  serve emptyResponse functions fuel h this (inr incoming) additionalData res
    = Return out ->
  exists R before,
    h !! this = Some R /\
    d_effects (served out) =
      before ++
      [CallBuildResponse;
       ConsoleLog (buildResponse (customResponseTransformer R)
                     (d_response (served out)))].
Proof.
  unfold serve. cbn [instanceofRouterRequest negb].
  unfold mbind, result_bind.
  destruct (findMatchingRoutes _ _ _ _); try discriminate.
  destruct (find _ _); try discriminate.
  destruct (deref h this) as [R| |] eqn:D; try discriminate.
  destruct (if (0 <? _)%nat then _ else _); try discriminate.
  destruct (invoke _ _ _ _) as [st| |]; try discriminate.
  intros [= <-]. exists R, (d_effects st). split; [| reflexivity].
  now apply deref_Return.
Qed.

End ServeFacts.

Section ServeExamples.

Import Scenario SegmentPatterns.

(** C3 fails on the code: the dispatch of the raw request [GET /x/]
    succeeds, the response ["ACD"] is built and written to the console,
    and [serve] resolves with [undefined], not with the built response. *)
Theorem serve_resolves_undefined :
  serve "" handlers 2 nestedHeap 0 (inr getIncoming) None None =
    Return
      {| returned := None;
         served :=
           {| d_request := setParams (Some []) getRequest;
              d_response :=
                {| response := "ACD"; resp_route := Some routeD |};
              d_effects :=
                [CallFindMatchingRoutes; CallHandler routeA;
                 CallHandler routeC; CallHandler routeD;
                 CallBuildResponse; ConsoleLog "ACD"] |} |}.
Proof. reflexivity. Qed.

(** The same with a response transform configured on the Router. *)
Example serve_transformed :
  let shout := fun payload : string => payload +:+ "!" in
  let h := [{| basePath := "/"; isWaterfall := true;
               routes := [routeE];
               customResponseTransformer := Some shout |}] in
  exists out,
    serve "" handlers 1 h 0 (inr getIncoming) None None = Return out /\
    returned out = None /\
    last (d_effects (served out)) = Some (ConsoleLog "E!").
Proof. eexists. repeat split. Qed.

(** A Router with middleware only: no handler is found. *)
Example serve_no_handler :
  serve "" handlers 1 [set_routes [routeA] rootRouter] 0
    (inr getIncoming) None None =
    Throw (ErrorMsg "Could not find a response handler for the request!").
Proof. reflexivity. Qed.

(** The same Router and request, already wrapped: nothing happens. *)
Example serve_wrapped_no_handler :
  serve "" handlers 1 [set_routes [routeA] rootRouter] 0
    (inl getRequest) None None =
    Return {| returned := None;
              served := {| d_request := getRequest;
                           d_response := RouterResponse_new "" getRequest;
                           d_effects := [] |} |}.
Proof. reflexivity. Qed.

End ServeExamples.


(** ** Further properties of registration and construction *)

Section MoreRegistration.

Context `{UrlPatternLib} {Value : Type}.
Implicit Types (h : list (Router Value)) (R : Router Value).
Implicit Types (options : RouteOptions).
Import Js JsFacts.

Lemma fixPath_basePath R R' (path : string) :
  basePath R = basePath R' -> fixPath R path = fixPath R' path.
Proof. unfold fixPath. now intros ->. Qed.

Lemma createRoute_Return_guard this options h h' route :
  createRoute this options h = (h', Return route) -> rejected options = false.
Proof.
  unfold createRoute, rejected. destruct (negb _ && _); [discriminate | easy].
Qed.

(** X1: [new Router(options)] allocates the Router at the next index and
    leaves the objects of the store as they are.  The new Router has no
    routes, is in waterfall mode, keeps the transformer of the options, and
    its base path is the option normalized under the root: it starts and
    ends with the separator, and an omitted or empty option gives ["/"]. *)
Theorem Router_new_normalized fuel (options : RouterOptions Value) h :
  exists R,
    Router_new (S fuel) options h = (h ++ [R], Return (length h)) /\
    routes R = [] /\
    isWaterfall R = true /\
    customResponseTransformer R = ro_customResponseTransformer options /\
    startsWith (basePath R) "/" = true /\
    endsWith (basePath R) "/" = true /\
    (default "" (ro_basePath options) = "" -> basePath R = "/").
Proof.
  eexists. split; [apply Router_new_fresh |]. cbn [routes isWaterfall
    customResponseTransformer basePath].
  repeat split.
  - now apply fixPath_startsWith.
  - apply fixPath_endsWith.
  - now intros ->.
Qed.

(** X2: on a Router without routes, [setBasePath] returns at once.  The
    new base path is the root joined with the argument (an omitted or empty
    argument counts as ["/"]), with a separator appended when none is
    there; the base path the Router had before plays no part.  It is
    stored in the Router, whose other fields and the other objects of the
    store stay as they are. *)
Theorem setBasePath_without_routes fuel this (path : option string) h R :
  h !! this = Some R -> routes R = [] ->
  let joined := "/" +:+ stripped (or_default (default "" path) "/") in
  let b := if endsWith joined "/" then joined else joined +:+ "/" in
  setBasePath (S fuel) this path h = (<[this := set_basePath b R]> h, Return b)
  /\ startsWith b "/" = true /\ endsWith b "/" = true.
Proof.
  intros E N joined b.
  assert (b = fixPath (set_basePath "/" R)
                (or_default (default "" path) "/")) as Eb
    by (subst b joined; now rewrite fixPath_unfold).
  split; [| rewrite Eb; split;
            [now apply fixPath_startsWith | apply fixPath_endsWith]].
  unfold setBasePath. run_state.
  rewrite (deref_Some _ _ _ E). lazy beta iota.
  rewrite (deref_write _ _ _ _ E). lazy beta iota.
  rewrite list_insert_insert_eq, <- Eb.
  assert (this < length h) as L by now apply lookup_lt_Some in E.
  erewrite setBasePath_loop_empty;
    [| now apply list_lookup_insert_eq | exact N].
  lazy beta iota. rewrite (deref_write _ _ _ _ E). lazy beta iota.
  rewrite list_insert_insert_eq.
  assert (<[this := set_routes [] (set_basePath b (set_basePath "/" R))]> h
          !! this
          = Some (set_routes [] (set_basePath b (set_basePath "/" R)))) as E'
    by now apply list_lookup_insert_eq.
  rewrite (deref_Some _ _ _ E'). lazy beta iota.
  do 2 f_equal. unfold set_routes, set_basePath. cbn. rewrite N.
  now destruct R.
Qed.

(** X3: a call of [createRoute] that returns has appended the Route it
    returns after the Routes the Router had, in their order, and has
    changed neither another field of the Router nor another object of the
    store. *)
Theorem createRoute_appends this options h h' route :
  createRoute this options h = (h', Return route) ->
  length h' = length h /\
  (forall other, other <> this -> h' !! other = h !! other) /\
  exists R,
    h !! this = Some R /\
    h' !! this = Some (set_routes (routes R ++ [route]) R) /\
    handler route = opt_handler options /\
    inputPath (path route) = opt_path options /\
    method route = default GET (opt_method options).
Proof.
  intros C. apply createRoute_Return in C as (R & p & E & P & -> & ->).
  split; [apply length_insert |]. split.
  - intros other N. now apply list_lookup_insert_ne.
  - exists R. split; [exact E |]. split; [| easy].
    apply list_lookup_insert_eq. now apply lookup_lt_Some in E.
Qed.

(** X4: [createRoute] returns exactly when the guard accepts the options,
    the Router exists and the pattern library accepts the normalized path;
    and a call that does not return, whatever it throws, leaves the store
    as it was. *)
Theorem createRoute_returns_iff this options h :
  ((exists h' route, createRoute this options h = (h', Return route)) <->
   rejected options = false /\
   exists R, h !! this = Some R /\
             is_Some (UrlPattern_new (fixPath R (opt_path options)))) /\
  (forall h' (r : result Route),
     createRoute this options h = (h', r) ->
     (forall route, r <> Return route) -> h' = h).
Proof.
  split; [split |].
  - intros (h' & route & C). split; [now apply createRoute_Return_guard in C |].
    apply createRoute_Return in C as (R & p & E & P & _). now exists R.
  - intros (G & R & E & p & P).
    do 2 eexists. now apply (createRoute_accepted _ _ _ R p).
  - intros h' r. apply createRoute_failure.
Qed.

Lemma route_ok_constructed this R options p :
  rejected options = false ->
  UrlPattern_new (fixPath R (opt_path options)) = Some p ->
  route_ok this R (constructed this R options p).
Proof.
  intros G P. unfold route_ok, constructed. cbn.
  split; [easy |]. split; [easy |]. split; [easy |]. split; [easy |].
  intros I. rewrite I. split; [| reflexivity].
  revert G. unfold rejected. rewrite I.
  now destruct (opt_method options) as [[]|].
Qed.

(** X5: the calls that build a store keep the invariant of its Routes.
    After [createRoute], whether it returns or throws, and after
    [new Router], every Route of every Router still refers back to its
    Router, has the path normalized under the base path of that Router and
    the pattern compiled from it, and, when its handler is a Router, has
    the method ANY and is no middleware. *)
Theorem registration_keeps_store_ok h :
  store_ok h ->
  (forall this options h' (r : result Route),
     createRoute this options h = (h', r) -> store_ok h') /\
  (forall fuel (options : RouterOptions Value) h' (r : result nat),
     Router_new (S fuel) options h = (h', r) -> store_ok h').
Proof.
  intros OK. split.
  - intros this options h' [route|e|] C.
    + pose proof (createRoute_Return_guard _ _ _ _ _ C) as G.
      apply createRoute_Return in C as (R & p & E & P & -> & ->).
      intros i R' route' L I.
      destruct (decide (i = this)) as [->|N].
      * rewrite list_lookup_insert_eq in L by now apply lookup_lt_Some in E.
        injection L as <-. cbn [routes set_routes] in I.
        apply elem_of_app in I as [I|I].
        -- destruct (OK _ _ _ E I) as (A & B & C). split; [exact A |].
           split; [| exact C].
           rewrite B. now apply fixPath_basePath.
        -- apply list_elem_of_singleton in I as ->.
           pose proof (route_ok_constructed this R options p G P)
             as (A & B & C).
           split; [exact A |]. split; [| exact C].
           rewrite B. now apply fixPath_basePath.
      * rewrite list_lookup_insert_ne in L by congruence. now apply (OK i).
    + now rewrite (createRoute_failure _ _ _ _ _ C).
    + now rewrite (createRoute_failure _ _ _ _ _ C).
  - intros fuel options h' r. rewrite Router_new_fresh. intros [= <- <-].
    intros i R route L I.
    apply lookup_app_Some in L as [L|[_ L]]; [now apply (OK i) |].
    apply list_lookup_singleton_Some in L as [_ <-].
    cbn [routes] in I. now apply elem_of_nil in I.
Qed.

(** X6: [get] and [post] register a Route that is no middleware, with the
    method GET or POST, when the handler is a function; for a Router as
    handler they always throw and leave the store as it was, because their
    method is not ANY. *)
Theorem get_post_register this (input : string) h :
  (forall nested,
     get this input (RouterHandler nested) h =
       (h, Throw (ErrorMsg
          "Cannot have handler as instance of Router if method is not ANY!"))
     /\
     post this input (RouterHandler nested) h =
       (h, Throw (ErrorMsg
          "Cannot have handler as instance of Router if method is not ANY!")))
  /\
  (forall f R p,
     h !! this = Some R -> UrlPattern_new (fixPath R input) = Some p ->
     exists g q,
       get this input (FunctionHandler f) h =
         (<[this := set_routes (routes R ++ [g]) R]> h, Return tt) /\
       post this input (FunctionHandler f) h =
         (<[this := set_routes (routes R ++ [q]) R]> h, Return tt) /\
       method g = GET /\ method q = POST /\
       isMiddleware g = false /\ isMiddleware q = false /\
       handler g = FunctionHandler f /\ handler q = FunctionHandler f /\
       formattedPath (path g) = fixPath R input /\
       formattedPath (path q) = fixPath R input).
Proof.
  split.
  - intros nested. unfold get, post. run_state.
    now rewrite !createRoute_rejected.
  - intros f R p E P. unfold get, post. run_state.
    do 2 eexists.
    rewrite !(createRoute_accepted _ _ _ R p) by easy.
    repeat split.
Qed.

End MoreRegistration.

(** ** Further properties of path normalization *)

Section MoreFixPath.

Context `{UrlPatternLib} {Value : Type}.
Implicit Types (this : Router Value).
Import Js JsFacts.

Lemma endsWith_app_nonempty (a s : string) :
  s <> "" -> endsWith (a +:+ s) "/" = endsWith s "/".
Proof.
  intros N. induction a as [|x a IH]; [reflexivity |].
  rewrite app_cons. cbn [endsWith]. rewrite IH.
  destruct (String.eqb_spec (String x (a +:+ s)) "/") as [E|_];
    [| reflexivity].
  injection E as _ E. apply app_eq_nil in E as [_ E]. congruence.
Qed.

Lemma stripped_plain (s : string) : startsWith s "/" = false -> stripped s = s.
Proof. unfold stripped. now intros ->. Qed.

Lemma startsWith_app (s t : string) :
  s <> "" -> startsWith (s +:+ t) "/" = startsWith s "/".
Proof.
  destruct s as [|c s]; [congruence |]. intros _. rewrite app_cons.
  cbn [startsWith]. now destruct (Ascii.eqb _ _), (s +:+ t), s.
Qed.

(** X7: the separators around the input do not matter.  For an input [p]
    that is not empty and neither starts nor ends with the separator, the
    four spellings [p], [/p], [p/] and [/p/] are all normalized to the base
    path (the root when it is empty) followed by [p] and one separator. *)
Theorem fixPath_spellings this (p : string) :
  p <> "" -> startsWith p "/" = false -> endsWith p "/" = false ->
  let normalized := or_default (basePath this) "/" +:+ p +:+ "/" in
  fixPath this p = normalized /\
  fixPath this ("/" +:+ p) = normalized /\
  fixPath this (p +:+ "/") = normalized /\
  fixPath this ("/" +:+ p +:+ "/") = normalized.
Proof.
  intros N S E normalized. subst normalized.
  assert (p +:+ "/" <> "") as N'
    by (intros A; now apply app_eq_nil in A as [_ A]).
  assert (stripped (p +:+ "/") = p +:+ "/") as S'
    by (apply stripped_plain; now rewrite startsWith_app).
  rewrite !fixPath_unfold. cbv zeta.
  change ("/" +:+ p) with (String "/" p).
  change ("/" +:+ p +:+ "/") with (String "/" (p +:+ "/")).
  rewrite !stripped_slash, S', (stripped_plain p S).
  rewrite !endsWith_app_nonempty by assumption.
  rewrite E, endsWith_snoc. now rewrite app_assoc.
Qed.

End MoreFixPath.

(** ** Further properties of matching and discovery *)

Section MoreDiscovery.

Context `{UrlPatternLib} {AdditionalDataType Value : Type}.
Implicit Types (h : list (Router Value)) (R : Router Value).
Implicit Types (request : RouterRequest AdditionalDataType).
Implicit Types (recurse : nat -> result (list MatchingRoute)).
Implicit Types (rs : list Route) (found ms : list MatchingRoute).


Lemma loop_Forall_in (P : MatchingRoute -> Prop) recurse request rs :
  (forall route f,
     route ∈ rs -> handler route = FunctionHandler f ->
     doesMatch (Route_match route request) = true ->
     P (matching request route)) ->
  (forall route nested sub,
     route ∈ rs -> handler route = RouterHandler nested ->
     recurse nested = Return sub -> Forall P sub) ->
  forall found ms,
    Forall P found ->
    findMatchingRoutes_loop recurse request rs found = Return ms ->
    Forall P ms.
Proof.
  induction rs as [|route rs IH]; intros Fn Sub found ms F;
    [now intros [= <-] |].
  cbn [findMatchingRoutes_loop].
  assert (forall route' f,
            route' ∈ rs -> handler route' = FunctionHandler f ->
            doesMatch (Route_match route' request) = true ->
            P (matching request route')) as Fn'
    by (intros route' f I; apply Fn; now right).
  assert (forall route' nested sub,
            route' ∈ rs -> handler route' = RouterHandler nested ->
            recurse nested = Return sub -> Forall P sub) as Sub'
    by (intros route' nested sub I; apply Sub; now right).
  destruct (handler route) as [f|nested] eqn:E.
  - destruct (doesMatch _) eqn:M; [| now apply IH].
    apply IH; [exact Fn' | exact Sub' |]. apply Forall_app.
    split; [exact F |]. constructor; [| constructor].
    apply (Fn route f); [now left | easy..].
  - unfold mbind, result_bind.
    destruct (recurse nested) as [sub| |] eqn:N; try discriminate.
    apply IH; [exact Fn' | exact Sub' |]. apply Forall_app.
    split; [exact F |]. apply (Sub route nested); [now left | easy..].
Qed.

(** X9: what is found is there.  Every entry of a result of
    [findMatchingRoutes] is a Route of a Router reachable from [this]
    through mounted Routers; its handler is a function, it matches the
    request, and the entry carries the parameters its pattern captured. *)
Theorem findMatchingRoutes_sound fuel :
  forall h this request ms,
    findMatchingRoutes fuel h this request = Return ms ->
    Forall (fun m =>
              exists r R,
                rtc (mounts h) this r /\ h !! r = Some R /\
                mr_route m ∈ routes R /\
                instanceofRouter (handler (mr_route m)) = false /\
                doesMatch (Route_match (mr_route m) request) = true /\
                mr_match m = matchPath (mr_route m) request /\
                is_Some (mr_match m))
           ms.
Proof.
  induction fuel as [|fuel IH]; intros h this request ms; [discriminate |].
  destruct (h !! this) as [R|] eqn:E.
  - rewrite (findMatchingRoutes_unfold _ _ _ _ _ E).
    apply loop_Forall_in; [| | constructor].
    + intros route f I F M. exists this, R. cbn [mr_route mr_match matching].
      rewrite F. repeat split; try easy.
      apply Route_match_doesMatch in M as [M _]. exact M.
    + intros route nested sub I F N. apply IH in N.
      eapply Forall_impl; [exact N |].
      intros m (r & R' & Reach & Rest). exists r, R'. split; [| exact Rest].
      eapply rtc_l; [| exact Reach]. now exists R, route.
  - cbn [findMatchingRoutes]. unfold deref. now rewrite E.
Qed.

Lemma loop_complete recurse request rs :
  forall found ms,
    findMatchingRoutes_loop recurse request rs found = Return ms ->
    (forall m, m ∈ found -> m ∈ ms) /\
    (forall route,
       route ∈ rs -> plain_match request route ->
       matching request route ∈ ms) /\
    (forall route nested,
       route ∈ rs -> handler route = RouterHandler nested ->
       exists sub, recurse nested = Return sub /\
                   forall m, m ∈ sub -> m ∈ ms).
Proof.
  induction rs as [|route rs IH]; intros found ms.
  - intros [= <-]. split; [easy |].
    split; [intros route I | intros route nested I];
      now apply elem_of_nil in I.
  - cbn [findMatchingRoutes_loop].
    destruct (handler route) as [f|nested] eqn:E.
    + destruct (doesMatch _) eqn:M; intros L;
        apply IH in L as (Found & Plain & Nested).
      * split; [intros m I; apply Found, elem_of_app; now left |].
        split.
        -- intros route' I P. apply elem_of_cons in I as [->|I];
             [| now apply Plain].
           apply Found, elem_of_app. right. now left.
        -- intros route' nested I F. apply elem_of_cons in I as [->|I];
             [congruence | now apply (Nested route')].
      * split; [exact Found |]. split.
        -- intros route' I P. apply elem_of_cons in I as [->|I];
             [| now apply Plain].
           destruct P as [_ P]. congruence.
        -- intros route' nested I F. apply elem_of_cons in I as [->|I];
             [congruence | now apply (Nested route')].
    + unfold mbind, result_bind.
      destruct (recurse nested) as [sub| |] eqn:N; try discriminate.
      intros L. apply IH in L as (Found & Plain & Nested).
      split; [intros m I; apply Found, elem_of_app; now left |].
      split.
      * intros route' I P. apply elem_of_cons in I as [->|I];
          [| now apply Plain].
        destruct P as [P _]. rewrite E in P. discriminate.
      * intros route' nested' I F. apply elem_of_cons in I as [->|I];
          [| now apply (Nested route')].
        assert (nested' = nested) as -> by congruence.
        exists sub. split; [exact N |].
        intros m I. apply Found, elem_of_app. now right.
Qed.

(** X10: what is there is found.  When [findMatchingRoutes] returns, its
    result holds every Route with a function as handler that matches the
    request, of [this] Router and of every Router reachable from it through
    mounted Routers; the path and the method of the mounting Routes play no
    part. *)
Theorem findMatchingRoutes_complete fuel :
  forall h this request ms,
    findMatchingRoutes fuel h this request = Return ms ->
    forall r R route,
      rtc (mounts h) this r -> h !! r = Some R -> route ∈ routes R ->
      plain_match request route ->
      matching request route ∈ ms.
Proof.
  induction fuel as [|fuel IH]; intros h this request ms; [discriminate |].
  destruct (h !! this) as [R0|] eqn:E.
  - rewrite (findMatchingRoutes_unfold _ _ _ _ _ E). intros L.
    apply loop_complete in L as (_ & Plain & Nested).
    intros r R route Reach Er I P.
    apply rtc_inv in Reach as [<-|(y & (Ry & mount & Ey & Iy & Fy) & Reach)].
    + assert (R = R0) as -> by congruence. now apply Plain.
    + assert (Ry = R0) as -> by congruence.
      destruct (Nested _ _ Iy Fy) as (sub & N & Sub).
      apply Sub. now apply (IH _ _ _ _ N r R).
  - cbn [findMatchingRoutes]. unfold deref. now rewrite E.
Qed.

Lemma loop_flat recurse request rs :
  Forall (fun route => instanceofRouter (handler route) = false) rs ->
  forall found,
    findMatchingRoutes_loop recurse request rs found =
      Return (found ++
              map (matching request)
                (List.filter
                   (fun route => doesMatch (Route_match route request)) rs)).
Proof.
  induction 1 as [|route rs F _ IH]; intros found.
  - cbn. now rewrite app_nil_r.
  - cbn [findMatchingRoutes_loop List.filter].
    destruct (handler route); [| discriminate].
    destruct (doesMatch _); [| apply IH].
    rewrite IH. cbn [map]. now rewrite <- app_assoc.
Qed.

(** X11: on a Router that mounts no Router, [findMatchingRoutes] returns,
    with any fuel, the Routes that match the request in the order of
    their registration, each once. *)
Theorem findMatchingRoutes_flat fuel h this request R :
  h !! this = Some R ->
  Forall (fun route => instanceofRouter (handler route) = false) (routes R) ->
  findMatchingRoutes (S fuel) h this request =
    Return (map (matching request)
              (List.filter
                 (fun route => doesMatch (Route_match route request))
                 (routes R))).
Proof.
  intros E F. rewrite (findMatchingRoutes_unfold _ _ _ _ _ E).
  now rewrite loop_flat.
Qed.


End MoreDiscovery.

(** ** Further properties of dispatch *)

Section MoreServe.

Context `{UrlPatternLib} {AdditionalDataType Value : Type}.
Variable emptyResponse : Value.
Variable functions :
  nat -> RouterRequest AdditionalDataType -> RouterResponse Value ->
  option AdditionalDataType ->
  result (RouterRequest AdditionalDataType * RouterResponse Value).
Implicit Types (h : list (Router Value)).
Implicit Types (additionalData : option AdditionalDataType).
Implicit Types (ms : list MatchingRoute).
Implicit Types (st : Dispatch AdditionalDataType Value).

Lemma find_first {A : Type} (l : list A) :
  List.find (fun _ => true) l = head l.
Proof. now destruct l. Qed.

Lemma invoke_effects route additionalData st st' :
  invoke functions route additionalData st = Return st' ->
  d_effects st' = d_effects st ++ [CallHandler route].
Proof.
  unfold invoke. destruct (handler route); [| discriminate].
  unfold mbind, result_bind.
  destruct (functions _ _ _ _); try discriminate. now intros [= <-].
Qed.

Lemma waterfall_effects ms additionalData :
  forall st st',
    waterfall functions ms additionalData st = Return st' ->
    d_effects st' =
      d_effects st ++ map (fun m => CallHandler (mr_route m)) ms.
Proof.
  induction ms as [|m ms IH]; intros st st'.
  - intros [= <-]. cbn. now rewrite app_nil_r.
  - cbn [waterfall]. unfold mbind, result_bind.
    destruct (invoke _ _ _ _) as [st1| |] eqn:I; try discriminate.
    intros W. apply IH in W. apply invoke_effects in I.
    rewrite W, I. cbn [map]. now rewrite <- app_assoc.
Qed.

Lemma promiseAll_effects ms additionalData :
  forall st st' (rejected : option Error),
    promiseAll functions ms additionalData st rejected = Return st' ->
    d_effects st' =
      d_effects st ++ map (fun m => CallHandler (mr_route m)) ms.
Proof.
  induction ms as [|m ms IH]; intros st st' rejected.
  - cbn [promiseAll]. destruct rejected; [discriminate |].
    intros [= <-]. cbn. now rewrite app_nil_r.
  - cbn [promiseAll].
    destruct (invoke _ _ _ _) as [st1|e|] eqn:I; try discriminate.
    + intros W. apply IH in W. apply invoke_effects in I.
      rewrite W, I. cbn [map]. now rewrite <- app_assoc.
    + intros W. apply IH in W. rewrite W. cbn [record d_effects map].
      now rewrite <- app_assoc.
Qed.

(** X13: when the Routes found for a raw request are all middleware, or
    none is found, [serve] throws the error of the missing response
    handler. *)
Theorem serve_no_response_handler fuel h this (incoming : IncomingRequest)
  additionalData (res : option (RouterResponse Value)) ms :
  findMatchingRoutes fuel h this (RouterRequest_new incoming additionalData)
    = Return ms ->
  Forall (fun m => isMiddleware (mr_route m) = true) ms ->
  serve emptyResponse functions fuel h this (inr incoming) additionalData res
    = Throw (ErrorMsg "Could not find a response handler for the request!").
Proof.
  intros F M.
  assert (List.filter (fun m => negb (isMiddleware (mr_route m))) ms = [])
    as None.
  { clear F. induction M as [|m ms E _ IH]; [reflexivity |].
    cbn [List.filter]. now rewrite E. }
  unfold serve. cbn [instanceofRouterRequest negb].
  rewrite F. unfold mbind at 1. unfold result_bind at 1.
  now rewrite None.
Qed.

(** X14: the order of a successful dispatch of a raw request.  [serve]
    first discovers the matching Routes; the handler is the first one
    found that is no middleware; every middleware found is called once, in
    the order of discovery, before the handler; the handler is called once,
    no other matching Route is; then the response is built with the
    transform of the Router and written to the console. *)
Theorem serve_order fuel h this (incoming : IncomingRequest)
  additionalData (res : option (RouterResponse Value))
  (out : Served AdditionalDataType Value) :
  serve emptyResponse functions fuel h this (inr incoming) additionalData res
    = Return out ->
  exists ms terminal others R,
    findMatchingRoutes fuel h this (RouterRequest_new incoming additionalData)
      = Return ms /\
    List.filter (fun m => negb (isMiddleware (mr_route m))) ms
      = terminal :: others /\
    h !! this = Some R /\
    d_effects (served out) =
      dispatch_effects ms terminal
        (buildResponse (customResponseTransformer R)
           (d_response (served out))).
Proof.
  unfold serve. cbn [instanceofRouterRequest negb].
  unfold mbind at 1. unfold result_bind at 1.
  destruct (findMatchingRoutes _ _ _ _) as [ms| |] eqn:F; try discriminate.
  rewrite find_first.
  destruct (List.filter (fun m => negb _) ms) as [|terminal others] eqn:T;
    [discriminate |].
  cbn [head]. unfold mbind at 1. unfold result_bind at 1.
  destruct (deref h this) as [R| |] eqn:D; try discriminate.
  unfold mbind at 1. unfold result_bind at 1.
  match goal with
  | |- context [if (0 <? ?n)%nat then ?a else ?b] =>
      destruct (if (0 <? n)%nat then a else b) as [st1| |] eqn:Mw
  end; try discriminate.
  unfold mbind at 1. unfold result_bind at 1.
  destruct (invoke _ _ _ _) as [st2| |] eqn:I; try discriminate.
  intros [= <-]. exists ms, terminal, others, R.
  split; [reflexivity |]. split; [exact T |].
  split; [now apply deref_Return |].
  cbn [served record d_effects d_response]. apply invoke_effects in I.
  rewrite I. unfold dispatch_effects.
  assert (d_effects st1 =
            CallFindMatchingRoutes ::
            map (fun m => CallHandler (mr_route m))
              (List.filter (fun m => isMiddleware (mr_route m)) ms)) as ->.
  { revert Mw.
    destruct (List.filter (fun m => isMiddleware (mr_route m)) ms)
      as [|m mws] eqn:Ms.
    - cbn. now intros [= <-].
    - cbn [length Nat.ltb Nat.leb].
      destruct (isWaterfall R); intros W;
        [apply waterfall_effects in W | apply promiseAll_effects in W];
        exact W. }
  cbn [app]. now rewrite <- app_assoc.
Qed.

(** X15: dispatch below a cycle does not return.  When a Router reachable
    from [this] through mounted Routers is mounted below itself, [serve]
    on a raw request is cut off in the discovery, at every depth, before
    any handler is called. *)
Theorem serve_cyclic h this r (incoming : IncomingRequest)
  additionalData (res : option (RouterResponse Value)) :
  closed h -> rtc (mounts h) this r -> tc (mounts h) r r ->
  forall fuel,
    serve emptyResponse functions fuel h this (inr incoming) additionalData res
      = OutOfFuel.
Proof.
  intros C Reach T fuel. unfold serve. cbn [instanceofRouterRequest negb].
  rewrite (reaching_cut_off h _ this r C Reach); [reflexivity |].
  intros fuel'. now apply cyclic_cut_off.
Qed.

(** X16: dispatch without middleware.  When no Route found for a raw
    request is a middleware, [serve] calls the function of the first Route
    found, with the request that carries the parameters of that match and
    the response that records that Route.  What the function throws,
    [serve] throws; when it returns, [serve] resolves with [undefined],
    after logging the response built from what the function left. *)
Theorem serve_without_middleware fuel h this (incoming : IncomingRequest)
  additionalData (res : option (RouterResponse Value))
  (terminal : MatchingRoute) others R f :
  findMatchingRoutes fuel h this (RouterRequest_new incoming additionalData)
    = Return (terminal :: others) ->
  Forall (fun m => isMiddleware (mr_route m) = false) (terminal :: others) ->
  h !! this = Some R ->
  handler (mr_route terminal) = FunctionHandler f ->
  let request :=
    setParams (mr_match terminal)
      (RouterRequest_new incoming additionalData) in
  let response :=
    setRoute (mr_route terminal)
      (default
         (RouterResponse_new emptyResponse
            (RouterRequest_new incoming additionalData)) res) in
  serve emptyResponse functions fuel h this (inr incoming) additionalData res
    = match functions f request response additionalData with
      | Return (request', response') =>
          Return
            {| returned := None;
               served :=
                 {| d_request := request'; d_response := response';
                    d_effects :=
                      [CallFindMatchingRoutes;
                       CallHandler (mr_route terminal);
                       CallBuildResponse;
                       ConsoleLog
                         (buildResponse (customResponseTransformer R)
                            response')] |} |}
      | Throw e => Throw e
      | OutOfFuel => OutOfFuel
      end.
Proof.
  intros F M E Hf request response.
  unfold serve. cbn [instanceofRouterRequest negb].
  rewrite F. unfold mbind at 1. unfold result_bind at 1.
  assert (forall l : list MatchingRoute,
            Forall (fun m => isMiddleware (mr_route m) = false) l ->
            List.filter (fun m => isMiddleware (mr_route m)) l = [] /\
            List.filter (fun m => negb (isMiddleware (mr_route m))) l = l)
    as Filters.
  { induction 1 as [|m l Em _ [IH1 IH2]]; [easy |].
    cbn [List.filter]. rewrite Em. cbn [negb]. now rewrite IH1, IH2. }
  destruct (Filters _ M) as [-> ->]. cbn [find length Nat.ltb Nat.leb].
  rewrite (deref_Some _ _ _ E). unfold mbind, mret, result_bind, result_ret.
  unfold invoke. rewrite Hf. cbn [d_request d_response record d_effects].
  fold request response.
  destruct (functions f request response additionalData) as [[rq rs]| |];
    reflexivity.
Qed.

End MoreServe.

(** ** The further properties on concrete stores *)

Section MoreExamples.

Import Js Scenario Cases SegmentPatterns.

Lemma setBasePath_without_routes_witness :
  [apiRouter] !! 0 = Some apiRouter /\ routes apiRouter = [] /\
  (setBasePath 1 0 (Some "v2") [apiRouter] =
     (<[0 := set_basePath "/v2/" apiRouter]> [apiRouter], Return "/v2/") /\
   startsWith "/v2/" "/" = true /\ endsWith "/v2/" "/" = true).
Proof.
  split; [reflexivity |]. split; [reflexivity |].
  exact (setBasePath_without_routes 0 0 (Some "v2") [apiRouter] apiRouter
           eq_refl eq_refl).
Defined.

Lemma createRoute_appends_witness :
  createRoute 0 widgetsOptions [rootRouter] =
    (widgetsHeap, Return widgetsRoute) /\
  (length widgetsHeap = length [rootRouter] /\
   (forall other, other <> 0 -> widgetsHeap !! other = [rootRouter] !! other)
   /\
   exists R,
     [rootRouter] !! 0 = Some R /\
     widgetsHeap !! 0 = Some (set_routes (routes R ++ [widgetsRoute]) R) /\
     handler widgetsRoute = opt_handler widgetsOptions /\
     inputPath (path widgetsRoute) = opt_path widgetsOptions /\
     method widgetsRoute = default GET (opt_method widgetsOptions)).
Proof.
  split; [reflexivity |].
  exact (createRoute_appends 0 widgetsOptions [rootRouter] widgetsHeap
           widgetsRoute eq_refl).
Defined.

Lemma nestedHeap_ok : store_ok nestedHeap.
Proof.
  intros i R route L I.
  destruct i as [|[|i]]; cbn in L; try discriminate; injection L as <-;
    cbn [routes set_routes] in I;
    repeat (apply elem_of_cons in I as [->|I]);
    try (now apply elem_of_nil in I);
    (split; [reflexivity |]); (split; [reflexivity |]);
    (split; [reflexivity |]); (split; [reflexivity |]);
    cbn; intros A; try discriminate; now split.
Qed.

Lemma registration_keeps_store_ok_witness :
  store_ok nestedHeap /\
  ((forall this options h' (r : result Route),
      createRoute this options nestedHeap = (h', r) -> store_ok h') /\
   (forall fuel (options : RouterOptions string) h' (r : result nat),
      Router_new (S fuel) options nestedHeap = (h', r) -> store_ok h')).
Proof.
  split; [exact nestedHeap_ok |].
  exact (registration_keeps_store_ok nestedHeap nestedHeap_ok).
Defined.

Lemma fixPath_spellings_witness :
  "widgets" <> "" /\ startsWith "widgets" "/" = false /\
  endsWith "widgets" "/" = false /\
  (fixPath apiRouter "widgets" = "/api/widgets/" /\
   fixPath apiRouter "/widgets" = "/api/widgets/" /\
   fixPath apiRouter "widgets/" = "/api/widgets/" /\
   fixPath apiRouter "/widgets/" = "/api/widgets/").
Proof.
  split; [discriminate |]. split; [reflexivity |]. split; [reflexivity |].
  apply (fixPath_spellings apiRouter "widgets");
    [discriminate | reflexivity | reflexivity].
Defined.

Lemma findMatchingRoutes_sound_witness :
  findMatchingRoutes 2 nestedHeap 0 getRequest =
    Return [matching getRequest routeA; matching getRequest routeC;
            matching getRequest routeD; matching getRequest routeE] /\
  Forall (fun m =>
            exists r R,
              rtc (mounts nestedHeap) 0 r /\ nestedHeap !! r = Some R /\
              mr_route m ∈ routes R /\
              instanceofRouter (handler (mr_route m)) = false /\
              doesMatch (Route_match (mr_route m) getRequest) = true /\
              mr_match m = matchPath (mr_route m) getRequest /\
              is_Some (mr_match m))
         [matching getRequest routeA; matching getRequest routeC;
          matching getRequest routeD; matching getRequest routeE].
Proof.
  split; [reflexivity |].
  apply (findMatchingRoutes_sound 2 nestedHeap 0 getRequest). reflexivity.
Defined.

Lemma nestedHeap_mounts : mounts nestedHeap 0 1.
Proof.
  exists (set_routes [routeA; routeB; routeE] rootRouter), routeB.
  split; [reflexivity |]. split; [| reflexivity]. right. now left.
Qed.

Lemma findMatchingRoutes_complete_witness :
  findMatchingRoutes 2 nestedHeap 0 getRequest =
    Return [matching getRequest routeA; matching getRequest routeC;
            matching getRequest routeD; matching getRequest routeE] /\
  rtc (mounts nestedHeap) 0 1 /\
  nestedHeap !! 1 = Some (set_routes [routeC; routeD] rootRouter) /\
  routeD ∈ routes (set_routes [routeC; routeD] rootRouter) /\
  plain_match getRequest routeD /\
  matching getRequest routeD ∈
    [matching getRequest routeA; matching getRequest routeC;
     matching getRequest routeD; matching getRequest routeE].
Proof.
  assert (rtc (mounts nestedHeap) 0 1) as Reach
    by (apply rtc_once, nestedHeap_mounts).
  assert (routeD ∈ routes (set_routes [routeC; routeD] rootRouter)) as I
    by (right; now left).
  split; [reflexivity |]. split; [exact Reach |]. split; [reflexivity |].
  split; [exact I |]. split; [now split |].
  apply (findMatchingRoutes_complete 2 nestedHeap 0 getRequest _ eq_refl
           1 (set_routes [routeC; routeD] rootRouter) routeD Reach eq_refl I).
  now split.
Defined.

Lemma findMatchingRoutes_flat_witness :
  flatHeap !! 0 = Some (set_routes [routeA; routeE] rootRouter) /\
  Forall (fun route => instanceofRouter (handler route) = false)
    (routes (set_routes [routeA; routeE] rootRouter)) /\
  findMatchingRoutes 1 flatHeap 0 getRequest =
    Return (map (matching getRequest)
              (List.filter
                 (fun route => doesMatch (Route_match route getRequest))
                 (routes (set_routes [routeA; routeE] rootRouter)))).
Proof.
  assert (Forall (fun route => instanceofRouter (handler route) = false)
            (routes (set_routes [routeA; routeE] rootRouter))) as F
    by (repeat constructor).
  split; [reflexivity |]. split; [exact F |].
  exact (findMatchingRoutes_flat 0 flatHeap 0 getRequest _ eq_refl F).
Defined.



Lemma serve_no_response_handler_witness :
  findMatchingRoutes 1 middlewareHeap 0 getRequest
    = Return [matching getRequest routeA] /\
  Forall (fun m => isMiddleware (mr_route m) = true)
    [matching getRequest routeA] /\
  serve "" handlers 1 middlewareHeap 0 (inr getIncoming) None None
    = Throw (ErrorMsg "Could not find a response handler for the request!").
Proof.
  assert (Forall (fun m => isMiddleware (mr_route m) = true)
            [matching getRequest routeA]) as M by (repeat constructor).
  split; [reflexivity |]. split; [exact M |].
  exact (serve_no_response_handler "" handlers 1 middlewareHeap 0 getIncoming
           None None _ eq_refl M).
Defined.

Lemma serve_order_witness :
  serve "" handlers 2 nestedHeap 0 (inr getIncoming) None None
    = Return nestedServed /\
  exists ms terminal others R,
    findMatchingRoutes 2 nestedHeap 0 getRequest
      = Return ms /\
    List.filter (fun m => negb (isMiddleware (mr_route m))) ms
      = terminal :: others /\
    nestedHeap !! 0 = Some R /\
    d_effects (served nestedServed) =
      dispatch_effects ms terminal
        (buildResponse (customResponseTransformer R)
           (d_response (served nestedServed))).
Proof.
  split; [reflexivity |].
  exact (serve_order "" handlers 2 nestedHeap 0 getIncoming None None
           nestedServed eq_refl).
Defined.

Lemma cyclicHeap_cycle : tc (mounts cyclicHeap) 0 0.
Proof.
  apply (tc_l _ 0 1 0); [| apply tc_once].
  - eexists _, _. split; [reflexivity |]. split; [now left | reflexivity].
  - eexists _, _. split; [reflexivity |]. split; [now left | reflexivity].
Qed.

Lemma serve_cyclic_witness :
  closed cyclicHeap /\ rtc (mounts cyclicHeap) 0 0 /\
  tc (mounts cyclicHeap) 0 0 /\
  forall fuel,
    serve "" handlers fuel cyclicHeap 0 (inr getIncoming) None None
      = OutOfFuel.
Proof.
  assert (closed cyclicHeap) as C by (apply closedb_closed; reflexivity).
  split; [exact C |]. split; [constructor |]. split; [exact cyclicHeap_cycle |].
  exact (serve_cyclic "" handlers cyclicHeap 0 0 getIncoming None None C
           (rtc_refl _ _) cyclicHeap_cycle).
Defined.

Lemma serve_without_middleware_witness :
  findMatchingRoutes 1 handlerHeap 0 getRequest
    = Return [matching getRequest routeE] /\
  Forall (fun m => isMiddleware (mr_route m) = false)
    [matching getRequest routeE] /\
  handlerHeap !! 0 = Some (set_routes [routeE] rootRouter) /\
  handler (mr_route (matching getRequest routeE)) = FunctionHandler 3 /\
  serve "" handlers 1 handlerHeap 0 (inr getIncoming) None None =
    Return
      {| returned := None;
         served :=
           {| d_request := setParams (Some []) getRequest;
              d_response := {| response := "E"; resp_route := Some routeE |};
              d_effects :=
                [CallFindMatchingRoutes; CallHandler routeE;
                 CallBuildResponse; ConsoleLog "E"] |} |}.
Proof.
  assert (Forall (fun m => isMiddleware (mr_route m) = false)
            [matching getRequest routeE]) as M by (repeat constructor).
  split; [reflexivity |]. split; [exact M |]. split; [reflexivity |].
  split; [reflexivity |].
  exact (serve_without_middleware "" handlers 1 handlerHeap 0 getIncoming
           None None (matching getRequest routeE) []
           (set_routes [routeE] rootRouter) 3 eq_refl M eq_refl eq_refl).
Defined.

Lemma setBasePath_no_return_witness :
  widgetsHeap !! 0 = Some (set_routes [widgetsRoute] rootRouter) /\
  routes (set_routes [widgetsRoute] rootRouter) <> [] /\
  forall h' b, setBasePath 3 0 (Some "/api/") widgetsHeap <> (h', Return b).
Proof.
  split; [reflexivity |]. split; [discriminate |].
  apply (setBasePath_no_return 3 0 (Some "/api/") widgetsHeap
           (set_routes [widgetsRoute] rootRouter));
    [reflexivity | discriminate].
Defined.

End MoreExamples.
